(** * Orchestrator: the caching, validation and retry core of orchestrator.py

    A shallow embedding of [CacheManager] and [MultiCloudOrchestrator] and the
    properties of the lookup pipeline.

    Conventions of the embedding.
    - A [datetime] is an integer count of microseconds ([Z]); a
      [timedelta(seconds=n)] is [n * 1000000].
    - A Python [dict] whose iteration order is observable (the cache, scanned
      by [min]) is an association list in insertion order; a [dict] that is
      only tested for key membership (a credential record) is a [gmap].
    - An exception is a value of [exn]; a call that may raise returns
      [exn + A], [inl] being the raised exception.
    - The clock and the provider API are the environment: functions from the
      number of earlier readings or calls to what the next one yields.
    - Decorated methods are embedded twice, as the body and as the decorated
      function, the retried ones with the configuration that [__init__]
      stores in [self.retry_config].  The last part of the development shows
      what happens to those decorators when the module is loaded.
    - [logger] calls have no effect on any value below and are left out, and
      so are [collect_metrics] and the dashboard command. *)

From Stdlib Require Import ZArith String List Bool Lia.
From stdpp Require Import base option list gmap strings.

Local Open Scope string_scope.
Local Open Scope Z_scope.

(** ** Values and exceptions *)

(** The payloads that travel through the cache: a resource-detail [dict]
    (its items, in order) or [None]. *)
Inductive value : Type :=
| VNone
| VDict (items : list (string * string)).

(** Python truthiness, the test of [if cached_data:]. *)
Definition truthy (v : value) : bool :=
  match v with
  | VNone => false
  | VDict [] => false
  | VDict (_ :: _) => true
  end.

Inductive exn : Type :=
| ValueError (msg : string)
| KeyError (key : string)
| NotImplementedError (msg : string)
| NameError (name : string)
| ClientError (msg : string)
| RetryError (last_attempt : exn).

(** ** Insertion-ordered dictionaries *)

Section Dict.
Context {V : Type}.

(** [d[k]] / [k in d] *)
Fixpoint dict_get (k : string) (d : list (string * V)) : option V :=
  match d with
  | [] => None
  | (k', v) :: r => if String.eqb k k' then Some v else dict_get k r
  end.

(** [del d[k]] *)
Fixpoint dict_del (k : string) (d : list (string * V)) : list (string * V) :=
  match d with
  | [] => []
  | (k', v) :: r => if String.eqb k k' then r else (k', v) :: dict_del k r
  end.

(** [d[k] = v]: an existing key keeps its position, a new one goes last. *)
Fixpoint dict_set (k : string) (v : V) (d : list (string * V)) : list (string * V) :=
  match d with
  | [] => [(k, v)]
  | (k', v') :: r =>
      if String.eqb k k' then (k, v) :: r else (k', v') :: dict_set k v r
  end.

Definition dict_keys (d : list (string * V)) : list string := map fst d.
End Dict.

(** ** CacheManager *)

Definition timedelta_seconds (n : Z) : Z := n * 1000000.

Module CacheManager.

Abbreviation entry := (value * Z)%type.

Record t : Type := mk {
  cache : list (string * entry);
  max_size : Z;
  ttl : Z
}.

Definition init (max_size ttl : Z) : t := mk [] max_size ttl.

Definition with_cache (self : t) (c : list (string * entry)) : t :=
  mk c (max_size self) (ttl self).

Definition timestamp (e : string * entry) : Z := snd (snd e).

(** The scan of [min(..., key=...)]: the running best is replaced only by a
    strictly smaller timestamp, so the first minimal entry wins. *)
Fixpoint min_from (best : string * entry) (rest : list (string * entry))
  : string * entry :=
  match rest with
  | [] => best
  | x :: r =>
      if timestamp x <? timestamp best then min_from x r else min_from best r
  end.

(** [min(self.cache.keys(), key=lambda k: self.cache[k][1])]; keys of a
    dict are unique, so [self.cache[k][1]] is the timestamp of the entry
    being visited.  [None] is the [ValueError] of [min] on no keys. *)
Definition oldest_key (c : list (string * entry)) : option string :=
  match c with
  | [] => None
  | x :: r => Some (fst (min_from x r))
  end.

(** [get], with the reading of [datetime.now()] passed in. *)
Definition get (self : t) (key : string) (now : Z) : value * t :=
  match dict_get key (cache self) with
  | Some (v, ts) =>
      if now - ts <? timedelta_seconds (ttl self)
      then (v, self)
      else (VNone, with_cache self (dict_del key (cache self)))
  | None => (VNone, self)
  end.

(** [set], with the reading of [datetime.now()] passed in. *)
Definition set (self : t) (key : string) (v : value) (now : Z) : exn + t :=
  if max_size self <=? Z.of_nat (length (cache self)) then
    match oldest_key (cache self) with
    | None => inl (ValueError "min() arg is an empty sequence")
    | Some oldest =>
        inr (with_cache self
               (dict_set key (v, now) (dict_del oldest (cache self))))
    end
  else inr (with_cache self (dict_set key (v, now) (cache self))).

(** The states a cache goes through: created empty, then any interleaving
    of [get] and non-raising [set] calls at arbitrary clock readings. *)
Inductive reachable (m l : Z) : t -> Prop :=
| reach_init : reachable m l (init m l)
| reach_get self key now :
    reachable m l self -> reachable m l (snd (get self key now))
| reach_set self key v now self' :
    reachable m l self -> set self key v now = inr self' ->
    reachable m l self'.

(** What every reachable cache satisfies: the configuration is the one it
    was created with, keys are unique, and the bound holds. *)
Definition inv (m l : Z) (self : t) : Prop :=
  max_size self = m /\ ttl self = l /\
  NoDup (dict_keys (cache self)) /\
  Z.of_nat (length (cache self)) <= m.

End CacheManager.


(** ** Providers and credential validation *)

Inductive CloudProvider : Type := AWS | AZURE | GCP | ORACLE | IBM.

Definition provider_eqb (p q : CloudProvider) : bool :=
  match p, q with
  | AWS, AWS | AZURE, AZURE | GCP, GCP | ORACLE, ORACLE | IBM, IBM => true
  | _, _ => false
  end.

(** [str(provider)], what an f-string prints for an [Enum] member. *)
Definition provider_str (p : CloudProvider) : string :=
  match p with
  | AWS => "CloudProvider.AWS"
  | AZURE => "CloudProvider.AZURE"
  | GCP => "CloudProvider.GCP"
  | ORACLE => "CloudProvider.ORACLE"
  | IBM => "CloudProvider.IBM"
  end.

(** A dict keyed by provider, in insertion order. *)
Fixpoint table_get {V : Type} (p : CloudProvider) (tbl : list (CloudProvider * V))
  : option V :=
  match tbl with
  | [] => None
  | (q, v) :: r => if provider_eqb p q then Some v else table_get p r
  end.

Definition required_fields : list (CloudProvider * list string) :=
  [ (AWS, ["access_key"; "secret_key"; "region"]);
    (AZURE, ["tenant_id"; "client_id"; "client_secret"; "subscription_id"]);
    (GCP, ["project_id"; "key_file"]);
    (ORACLE, ["user"; "private_key"; "tenancy"; "region"]);
    (IBM, ["api_key"]) ].

(** [', '.join(l)] for a separator [sep]. *)
Fixpoint join (sep : string) (l : list string) : string :=
  match l with
  | [] => ""
  | x :: r =>
      match r with
      | [] => x
      | _ :: _ => x +:+ sep +:+ join sep r
      end
  end.

(** [self.credentials.get(provider, {})] *)
Definition credentials_get (creds : list (CloudProvider * gmap string string))
  (p : CloudProvider) : gmap string string :=
  match table_get p creds with
  | Some record => record
  | None => ∅
  end.

(** [[field for field in required if field not in record]] *)
Definition missing_fields (required : list string) (record : gmap string string)
  : list string :=
  filter (λ field, record !! field = None) required.

Definition _validate_provider_credentials
  (creds : list (CloudProvider * gmap string string)) (provider : CloudProvider)
  : exn + unit :=
  match table_get provider required_fields with
  | None => inl (ValueError ("Unsupported provider: " +:+ provider_str provider))
  | Some required =>
      match missing_fields required (credentials_get creds provider) with
      | [] => inr tt
      | missing =>
          inl (ValueError ("Missing required fields for " +:+ provider_str provider
                           +:+ ": " +:+ join ", " missing))
      end
  end.

(** ** The retry configuration

    [retry], [stop_after_attempt] and [wait_exponential] come from the
    tenacity package, which the program imports and does not contain.  They
    are taken with that package's semantics: [stop_after_attempt(n)] stops
    once the attempt number (counted from 1) has reached [n];
    [wait_exponential(multiplier, min, max)] waits
    [multiplier * 2 ^ (attempt_number - 1)] seconds clamped into [[min, max]];
    every exception is retried; and, [reraise] not being passed, an
    exhausted retry raises [RetryError] holding the last attempt. *)

Record retry_config : Type := mk_retry_config {
  stop_after_attempt : nat;
  wait_multiplier : Z;
  wait_min : Z;
  wait_max : Z
}.

(** [self.retry_config] of [MultiCloudOrchestrator.__init__] *)
Definition the_retry_config : retry_config :=
  {| stop_after_attempt := 3; wait_multiplier := 1; wait_min := 4; wait_max := 10 |}.

Definition wait_exponential (cfg : retry_config) (attempt_number : nat) : Z :=
  Z.max (Z.max 0 (wait_min cfg))
        (Z.min (wait_multiplier cfg * 2 ^ (Z.of_nat attempt_number - 1)) (wait_max cfg)).

(** The delay of the specification's retry policy between attempt [i] and
    [i+1]: [min(max(base * 2^i, minWait), maxWait)]. *)
Definition spec_wait (base minWait maxWait : Z) (i : nat) : Z :=
  Z.min (Z.max (base * 2 ^ Z.of_nat i) minWait) maxWait.

(** ** Program state

    [cache_manager], [credentials] and [clients] are the attributes of the
    orchestrator ([clients] lists the providers [p] for which
    [self.clients[p]['ec2']] exists); [lru] is the table of the [lru_cache]
    around [get_resource_details], most recently used first.  The remaining
    fields observe the outside world: how often the clock has been read and
    the provider API called (they index the answers of the environment), how
    often the decorated [_fetch_resource_details] has been called, how often
    a retried operation has been run, and the sleeps requested (in seconds),
    latest first. *)

Record State : Type := mkState {
  cache_manager : CacheManager.t;
  credentials : list (CloudProvider * gmap string string);
  clients : list CloudProvider;
  lru : list ((CloudProvider * string) * value);
  reads : nat;
  api_calls : nat;
  fetch_calls : nat;
  attempts : nat;
  sleeps : list Z
}.

Definition set_cache_manager (c : CacheManager.t) (s : State) : State :=
  mkState c (credentials s) (clients s) (lru s) (reads s) (api_calls s)
          (fetch_calls s) (attempts s) (sleeps s).

Definition set_credentials (c : list (CloudProvider * gmap string string))
  (s : State) : State :=
  mkState (cache_manager s) c (clients s) (lru s) (reads s) (api_calls s)
          (fetch_calls s) (attempts s) (sleeps s).

Definition set_lru (l : list ((CloudProvider * string) * value)) (s : State) : State :=
  mkState (cache_manager s) (credentials s) (clients s) l (reads s) (api_calls s)
          (fetch_calls s) (attempts s) (sleeps s).

Definition tick_reads (s : State) : State :=
  mkState (cache_manager s) (credentials s) (clients s) (lru s) (S (reads s))
          (api_calls s) (fetch_calls s) (attempts s) (sleeps s).

Definition tick_api_calls (s : State) : State :=
  mkState (cache_manager s) (credentials s) (clients s) (lru s) (reads s)
          (S (api_calls s)) (fetch_calls s) (attempts s) (sleeps s).

Definition tick_fetch_calls (s : State) : State :=
  mkState (cache_manager s) (credentials s) (clients s) (lru s) (reads s)
          (api_calls s) (S (fetch_calls s)) (attempts s) (sleeps s).

Definition tick_attempts (s : State) : State :=
  mkState (cache_manager s) (credentials s) (clients s) (lru s) (reads s)
          (api_calls s) (fetch_calls s) (S (attempts s)) (sleeps s).

Definition push_sleep (secs : Z) (s : State) : State :=
  mkState (cache_manager s) (credentials s) (clients s) (lru s) (reads s)
          (api_calls s) (fetch_calls s) (attempts s) (secs :: sleeps s).

(** [MultiCloudOrchestrator()]: [CacheManager()] with its defaults, no
    credentials, no clients. *)
Definition new_orchestrator : State :=
  mkState (CacheManager.init 1000 300) [] [] [] 0 0 0 0 [].

(** Computations over the state that may raise. *)
Definition M (A : Type) : Type := State -> (exn + A) * State.

Definition ret {A : Type} (a : A) : M A := fun s => (inr a, s).

Definition raise {A : Type} (e : exn) : M A := fun s => (inl e, s).

Definition bind {A B : Type} (m : M A) (k : A -> M B) : M B :=
  fun s =>
    match m s with
    | (inr a, s') => k a s'
    | (inl e, s') => (inl e, s')
    end.

Notation "'let!' x ':=' m 'in' k" := (bind m (fun x => k))
  (at level 10, x name, m at level 100, k at level 200, only parsing).

(** ** The [lru_cache] table *)

Definition lru_maxsize : nat := 128.

Definition args_eqb (a b : CloudProvider * string) : bool :=
  provider_eqb (fst a) (fst b) && String.eqb (snd a) (snd b).

Fixpoint lru_find (a : CloudProvider * string)
  (l : list ((CloudProvider * string) * value)) : option value :=
  match l with
  | [] => None
  | (b, v) :: r => if args_eqb a b then Some v else lru_find a r
  end.

Fixpoint lru_remove (a : CloudProvider * string)
  (l : list ((CloudProvider * string) * value))
  : list ((CloudProvider * string) * value) :=
  match l with
  | [] => []
  | (b, v) :: r => if args_eqb a b then r else (b, v) :: lru_remove a r
  end.

(** A hit moves the entry to the most-recent end. *)
Definition lru_touch (a : CloudProvider * string) (v : value)
  (l : list ((CloudProvider * string) * value))
  : list ((CloudProvider * string) * value) :=
  (a, v) :: lru_remove a l.

(** Storing the result of a miss: nothing if the arguments got in meanwhile,
    otherwise the least recently used entry makes room when the table is
    full. *)
Definition lru_store (a : CloudProvider * string) (v : value)
  (l : list ((CloudProvider * string) * value))
  : list ((CloudProvider * string) * value) :=
  match lru_find a l with
  | Some _ => l
  | None =>
      if (lru_maxsize <=? length l)%nat
      then (a, v) :: removelast l
      else (a, v) :: l
  end.

(** ** Retrying (the decorator built from [the_retry_config])

    The operation is run, attempt numbers counting from 1; a failure is
    followed by the stop test and, if it says go on, by a sleep of
    [wait_exponential] seconds.  [remaining] is the number of attempts still
    allowed after the current one. *)

Fixpoint retry_from {A : Type} (cfg : retry_config) (remaining attempt_number : nat)
  (op : M A) : M A :=
  fun s =>
    match op (tick_attempts s) with
    | (inr v, s') => (inr v, s')
    | (inl e, s') =>
        match remaining with
        | O => (inl (RetryError e), s')
        | S r =>
            retry_from cfg r (S attempt_number) op
              (push_sleep (wait_exponential cfg attempt_number) s')
        end
    end.

Definition retry {A : Type} (cfg : retry_config) (op : M A) : M A :=
  retry_from cfg (stop_after_attempt cfg - 1) 1 op.

(** The loop of [_initialize_clients]: the first provider whose credentials
    do not validate raises. *)
Fixpoint initialize_each (creds : list (CloudProvider * gmap string string))
  (providers : list CloudProvider) : exn + unit :=
  match providers with
  | [] => inr tt
  | p :: r =>
      match _validate_provider_credentials creds p with
      | inl e => inl e
      | inr _ => initialize_each creds r
      end
  end.

Definition _initialize_clients : M unit :=
  retry the_retry_config
    (fun s => (initialize_each (credentials s) (map fst (credentials s)), s)).

(** ** Evaluation of the module's definitions

    What Python evaluates when it executes a [def] or [class] statement:
    decorator expressions, annotations and defaults, base classes, and the
    statements of a class body - not the bodies of functions.  A statement
    is kept as the names it binds and the names it reads, in evaluation
    order; a name is looked up in the class namespace (inside a class body),
    then the module's globals, then the builtins. *)

Inductive member : Type :=
| MAssign (target : string) (reads_names : list string)
| MAnn (target : string) (annotation : list string)
| MDef (name : string) (decorators signature : list string).

Inductive stmt : Type :=
| Import (names : list string)
| Expr (reads_names : list string)
| Assign (target : string) (reads_names : list string)
| FunctionDef (name : string) (decorators signature : list string)
| ClassDef (name : string) (decorators bases : list string) (body : list member).

(** The builtins the program mentions. *)
Definition builtins : list string :=
  [ "float"; "int"; "str"; "bool"; "dict"; "list"; "len"; "min"; "range";
    "Exception"; "ValueError"; "NotImplementedError"; "__name__" ].

Definition bound (scope : list string) (name : string) : bool :=
  existsb (String.eqb name) scope.

(** The first name that is not bound raises [NameError]. *)
Fixpoint lookup_all (scope : list string) (names : list string) : exn + unit :=
  match names with
  | [] => inr tt
  | n :: r => if bound scope n then lookup_all scope r else inl (NameError n)
  end.

Definition exec_member (globals locals : list string) (m : member)
  : exn + list string :=
  let scope := (locals ++ globals ++ builtins)%list in
  match m with
  | MAssign target names =>
      match lookup_all scope names with
      | inl e => inl e
      | inr _ => inr (target :: locals)
      end
  | MAnn _ annotation =>
      match lookup_all scope annotation with
      | inl e => inl e
      | inr _ => inr locals
      end
  | MDef name decorators signature =>
      match lookup_all scope (decorators ++ signature)%list with
      | inl e => inl e
      | inr _ => inr (name :: locals)
      end
  end.

Fixpoint exec_body (globals locals : list string) (body : list member)
  : exn + list string :=
  match body with
  | [] => inr locals
  | m :: r =>
      match exec_member globals locals m with
      | inl e => inl e
      | inr locals' => exec_body globals locals' r
      end
  end.

Definition exec_stmt (globals : list string) (s : stmt) : exn + list string :=
  let scope := (globals ++ builtins)%list in
  match s with
  | Import names => inr (names ++ globals)%list
  | Expr names =>
      match lookup_all scope names with
      | inl e => inl e
      | inr _ => inr globals
      end
  | Assign target names =>
      match lookup_all scope names with
      | inl e => inl e
      | inr _ => inr (target :: globals)
      end
  | FunctionDef name decorators signature =>
      match lookup_all scope (decorators ++ signature)%list with
      | inl e => inl e
      | inr _ => inr (name :: globals)
      end
  | ClassDef name decorators bases body =>
      match lookup_all scope (decorators ++ bases)%list with
      | inl e => inl e
      | inr _ =>
          match exec_body globals [] body with
          | inl e => inl e
          | inr _ => inr (name :: globals)
          end
      end
  end.

Fixpoint exec_module (globals : list string) (prog : list stmt) : exn + list string :=
  match prog with
  | [] => inr globals
  | s :: r =>
      match exec_stmt globals s with
      | inl e => inl e
      | inr globals' => exec_module globals' r
      end
  end.

(** Lines 1-18: imports and the logger. *)
Definition prelude : list stmt :=
  [ Import ["lru_cache"];
    Import ["retry"; "stop_after_attempt"; "wait_exponential"];
    Import ["psutil"]; Import ["time"]; Import ["dataclass"];
    Import ["Dict"; "Any"; "Optional"]; Import ["threading"];
    Import ["timedelta"; "datetime"]; Import ["Enum"]; Import ["logging"];
    Import ["typer"]; Import ["Console"]; Import ["Table"]; Import ["track"];
    Import ["Panel"];
    Expr ["logging"; "logging"];
    Assign "logger" ["logging"; "__name__"] ].

Definition class_MetricsData : stmt :=
  ClassDef "MetricsData" ["dataclass"] []
    [ MAnn "cpu_percent" ["float"]; MAnn "memory_percent" ["float"];
      MAnn "disk_usage" ["float"]; MAnn "last_updated" ["datetime"] ].

Definition class_CloudProvider : stmt :=
  ClassDef "CloudProvider" [] ["Enum"]
    [ MAssign "AWS" []; MAssign "AZURE" []; MAssign "GCP" [];
      MAssign "ORACLE" []; MAssign "IBM" [] ].

Definition class_CacheManager : stmt :=
  ClassDef "CacheManager" [] []
    [ MDef "__init__" [] ["int"; "int"];
      MDef "get" [] ["str"; "Any"];
      MDef "set" [] ["str"; "Any"] ].

(** The members of [class MultiCloudOrchestrator], lines 61-151.  The
    decorator of the two retried methods calls [retry] on the unpacked
    [self.retry_config]: it reads [retry], then [self]. *)
Definition body_MultiCloudOrchestrator : list member :=
  [ MDef "__init__" [] [];
    MDef "_initialize_clients" ["retry"; "self"] [];
    MDef "_validate_provider_credentials" [] ["CloudProvider"];
    MDef "get_resource_details" ["lru_cache"] ["CloudProvider"; "str"; "dict"];
    MDef "_fetch_resource_details" ["retry"; "self"] ["CloudProvider"; "str"; "dict"];
    MDef "collect_metrics" [] ["CloudProvider"; "MetricsData"];
    MDef "_validate_resource_exists" [] ["CloudProvider"; "str"; "bool"] ].

Definition class_MultiCloudOrchestrator : stmt :=
  ClassDef "MultiCloudOrchestrator" [] [] body_MultiCloudOrchestrator.

(** Lines 153-199. *)
Definition epilogue : list stmt :=
  [ Assign "orchestrator" ["MultiCloudOrchestrator"];
    Assign "app" ["typer"];
    Assign "console" ["Console"];
    FunctionDef "monitor" ["app"]
      ["typer"; "typer"; "Optional"; "CloudProvider"; "bool"] ].

Definition orchestrator_py : list stmt :=
  (prelude ++ [class_MetricsData; class_CloudProvider; class_CacheManager;
               class_MultiCloudOrchestrator] ++ epilogue)%list.

(** ** Metrics and the dashboard command

    [provider.value], the key of [self.metrics] and the first column of the
    dashboard. *)
Definition provider_value (p : CloudProvider) : string :=
  match p with
  | AWS => "aws"
  | AZURE => "azure"
  | GCP => "gcp"
  | ORACLE => "oracle"
  | IBM => "ibm"
  end.

(** [list(CloudProvider)], in definition order. *)
Definition all_providers : list CloudProvider := [AWS; AZURE; GCP; ORACLE; IBM].

(** The value a method without [return] hands back. *)
Definition returned (_ : unit) : value := VNone.

Section Metrics.
(** The percentages are floats; nothing below computes with them. *)
Variable float : Type.
(** [f"{x:.1f}%"] *)
Variable percent_1f : float -> string.

Record MetricsData : Type := mkMetricsData {
  cpu_percent : float;
  memory_percent : float;
  disk_usage : float;
  last_updated : Z
}.

(** [self.metrics] with what it observes of the host: how often the three
    [psutil] figures have been sampled and the clock read for a snapshot. *)
Record MetricsState : Type := mkMetricsState {
  metrics : gmap string MetricsData;
  samplings : nat;
  readings : nat
}.

(** The environment of [collect_metrics]: [psutil n] is what the [n]-th
    sampling of cpu, memory and disk yields or raises, [now n] the [n]-th
    clock reading. *)
Variable psutil : nat -> exn + (float * float * float).
Variable now : nat -> Z.

(** [collect_metrics]; its [except] clause re-raises what it caught. *)
Definition collect_metrics (provider : CloudProvider) (st : MetricsState)
  : (exn + MetricsData) * MetricsState :=
  match psutil (samplings st) with
  | inl e => (inl e, mkMetricsState (metrics st) (S (samplings st)) (readings st))
  | inr (cpu, mem, disk) =>
      let m := mkMetricsData cpu mem disk (now (readings st)) in
      (inr m,
       mkMetricsState (<[provider_value provider := m]> (metrics st))
                      (S (samplings st)) (S (readings st)))
  end.

(** A row of the dashboard table. *)
Record row : Type := mk_row {
  col_provider : string;
  col_active : string;
  col_cpu : string;
  col_memory : string;
  col_disk : string;
  col_cost : string
}.

(** What [monitor] sends to the console. *)
Inductive printed : Type :=
| PrintTable (rows : list row)
| PrintError (e : exn).

(** The [for p in providers] loop of [monitor]: a row is added when the
    value returned by [_validate_provider_credentials] is truthy. *)
Fixpoint monitor_rows (creds : list (CloudProvider * gmap string string))
  (providers : list CloudProvider) (rows : list row) (st : MetricsState)
  : (exn + list row) * MetricsState :=
  match providers with
  | [] => (inr rows, st)
  | p :: r =>
      match _validate_provider_credentials creds p with
      | inl e => (inl e, st)
      | inr u =>
          if truthy (returned u)
          then
            match collect_metrics p st with
            | (inl e, st') => (inl e, st')
            | (inr m, st') =>
                monitor_rows creds r
                  (rows ++ [mk_row (provider_value p) "10"
                              (percent_1f (cpu_percent m))
                              (percent_1f (memory_percent m))
                              (percent_1f (disk_usage m))
                              "$100.00"])%list
                  st'
            end
          else monitor_rows creds r rows st
      end
  end.

(** [monitor]: [fuel] bounds the passes of [while True] that are followed;
    a pass that raises prints the error and ends the command, a pass without
    [refresh] ends it after the table.  The result tells what was printed
    and whether the command has returned. *)
Fixpoint monitor_loop (fuel : nat) (creds : list (CloudProvider * gmap string string))
  (providers : list CloudProvider) (refresh : bool) (st : MetricsState)
  : list printed * bool * MetricsState :=
  match fuel with
  | O => ([], false, st)
  | S f =>
      match monitor_rows creds providers [] st with
      | (inl e, st') => ([PrintError e], true, st')
      | (inr rows, st') =>
          if refresh
          then
            match monitor_loop f creds providers refresh st' with
            | (out, finished, st'') => (PrintTable rows :: out, finished, st'')
            end
          else ([PrintTable rows], true, st')
      end
  end.

Definition monitor (fuel : nat) (creds : list (CloudProvider * gmap string string))
  (provider : option CloudProvider) (refresh : bool) (st : MetricsState)
  : list printed * bool * MetricsState :=
  let providers :=
    match provider with
    | Some p => [p]
    | None => all_providers
    end in
  monitor_loop fuel creds providers refresh st.

End Metrics.

Arguments cpu_percent {float} _.
Arguments memory_percent {float} _.
Arguments disk_usage {float} _.
Arguments last_updated {float} _.
Arguments metrics {float} _.
Arguments samplings {float} _.
Arguments readings {float} _.
Arguments mkMetricsData {float} _ _ _ _.
Arguments mkMetricsState {float} _ _ _.
Arguments collect_metrics {float} psutil now provider st.
Arguments monitor_rows {float} percent_1f psutil now creds providers rows st.
Arguments monitor_loop {float} percent_1f psutil now fuel creds providers refresh st.
Arguments monitor {float} percent_1f psutil now fuel creds provider refresh st.

(** ** Sample inputs *)

Definition instance_details : value := VDict [("InstanceId", "i-0123")].

Definition other_details : value := VDict [("InstanceId", "i-0999")].

(** AWS credentials without [region]. *)
Definition aws_without_region : gmap string string :=
  <["access_key" := "AKIA"]> (<["secret_key" := "s3cr3t"]> ∅).

(** A complete AWS record whose values are all blank. *)
Definition aws_blank : gmap string string :=
  <["access_key" := ""]> (<["secret_key" := ""]> (<["region" := ""]> ∅)).

(** A provider API that always answers. *)
Definition ec2_up : nat -> string -> exn + value :=
  fun _ _ => inr instance_details.

(** A provider API that always fails. *)
Definition ec2_down : nat -> string -> exn + value :=
  fun n _ =>
    inl (ClientError (match n with
                      | O => "timeout 1"
                      | S O => "timeout 2"
                      | _ => "timeout 3"
                      end)).

(** A clock that advances one second per reading, from [t0]. *)
Definition clock_from (t0 : Z) : nat -> Z :=
  fun n => t0 + Z.of_nat n * 1000000.

(** An orchestrator with an AWS client and AWS credentials missing
    [region]. *)
Definition orch_missing_region : State :=
  mkState (CacheManager.init 1000 300) [(AWS, aws_without_region)] [AWS] []
          0 0 0 0 [].

(** An orchestrator whose cache holds an entry for the AWS instance that was
    stored at time 0. *)
Definition orch_stale_entry : State :=
  mkState (CacheManager.mk [("CloudProvider.AWS:i-0123", (instance_details, 0))]
                           1000 300)
          [] [AWS] [] 0 0 0 0 [].

(** A provider API that answers the first call and fails from then on. *)
Definition ec2_up_once : nat -> string -> exn + value :=
  fun n _ =>
    match n with
    | O => inr instance_details
    | S _ => inl (ClientError "unreachable")
    end.

(** A clock that advances three seconds per reading, from 0. *)
Definition slow_clock : nat -> Z :=
  fun n => Z.of_nat n * 3000000.

(** A new orchestrator in which an AWS client has been registered. *)
Definition orch_with_client : State :=
  mkState (CacheManager.init 1000 300) [] [AWS] [] 0 0 0 0 [].

(** [n] distinct GCP resources. *)
Fixpoint xs (n : nat) : string :=
  match n with
  | O => ""
  | S k => "x" +:+ xs k
  end.

Definition fillers (n : nat) : list (CloudProvider * string) :=
  map (fun k => (GCP, "disk-" +:+ xs k)) (seq 0 n).

(** A provider API that answers every call with an empty dict. *)
Definition ec2_empty : nat -> string -> exn + value :=
  fun _ _ => inr (VDict []).

(** A cache of capacity 2 that is full; ["b"] holds the older entry. *)
Definition cache_two : CacheManager.t :=
  CacheManager.mk [("a", (instance_details, 5)); ("b", (other_details, 3))] 2 300.

(** An orchestrator whose cache holds [None] for an Azure resource, as a
    first lookup of that resource leaves it. *)
Definition orch_none_cached : State :=
  mkState (CacheManager.mk [("CloudProvider.AZURE:vm-1", (VNone, 0))] 1000 300)
          [] [] [] 1 0 1 1 [].

(** Three entries of which the last two share the least timestamp. *)
Definition cache_tied : list (string * (value * Z)) :=
  [("x", (VNone, 5)); ("y", (instance_details, 3)); ("z", (other_details, 3))].

(** A provider API that is throttled once and then answers. *)
Definition ec2_throttled_once : nat -> string -> exn + value :=
  fun n _ =>
    match n with
    | O => inl (ClientError "throttled")
    | S _ => inr instance_details
    end.

(** Complete AWS credentials next to IBM credentials without [api_key]. *)
Definition creds_ibm_incomplete : list (CloudProvider * gmap string string) :=
  [(AWS, aws_blank); (IBM, ∅)].

(** Host figures that are always available; the percentages are kept as
    integers here. *)
Definition psutil_steady : nat -> exn + (Z * Z * Z) :=
  fun _ => inr (12, 34, 56).

Definition percent_of_Z (_ : Z) : string := "0.0%".

Definition no_metrics : MetricsState Z := mkMetricsState ∅ 0 0.

(** ** The orchestrator's methods

    The environment: [clock n] is the [n]-th reading of [datetime.now()];
    [ec2 n id] is the outcome of the [n]-th [describe_instances] call,
    indexing of the response included. *)

Section Orchestrator.
Variable clock : nat -> Z.
Variable ec2 : nat -> string -> exn + value.

(** [self.cache_manager.get(key)]; the clock is read only when the key is
    present. *)
Definition cache_manager_get (key : string) : M value :=
  fun s =>
    match dict_get key (CacheManager.cache (cache_manager s)) with
    | None => (inr VNone, s)
    | Some _ =>
        let r := CacheManager.get (cache_manager s) key (clock (reads s)) in
        (inr (fst r), set_cache_manager (snd r) (tick_reads s))
    end.

(** [self.cache_manager.set(key, value)]; [min] raises before the clock is
    read. *)
Definition cache_manager_set (key : string) (v : value) : M unit :=
  fun s =>
    match CacheManager.set (cache_manager s) key v (clock (reads s)) with
    | inl e => (inl e, s)
    | inr c => (inr tt, set_cache_manager c (tick_reads s))
    end.

(** [self.clients[provider]['ec2'].describe_instances(InstanceIds=[id])]
    followed by [response['Reservations'][0]['Instances'][0]]. *)
Definition describe_instances (provider : CloudProvider) (resource_id : string)
  : M value :=
  fun s =>
    if existsb (provider_eqb provider) (clients s)
    then (ec2 (api_calls s) resource_id, tick_api_calls s)
    else (inl (KeyError (provider_str provider)), s).

(** The body of [_fetch_resource_details]; its [except] clause re-raises
    what it caught.  A branch that is [pass] falls off the end and returns
    [None]. *)
Definition fetch_resource_details_body (provider : CloudProvider)
  (resource_id : string) : M value :=
  if provider_eqb provider AWS && String.prefix "i-" resource_id
  then describe_instances provider resource_id
  else if provider_eqb provider AZURE then ret VNone
  else if provider_eqb provider GCP then ret VNone
  else if provider_eqb provider ORACLE then ret VNone
  else if provider_eqb provider IBM then ret VNone
  else raise (NotImplementedError
                ("Fetch logic for " +:+ provider_str provider
                 +:+ " is not implemented.")).

(** [_fetch_resource_details] as decorated. *)
Definition _fetch_resource_details (provider : CloudProvider)
  (resource_id : string) : M value :=
  fun s =>
    retry the_retry_config (fetch_resource_details_body provider resource_id)
          (tick_fetch_calls s).

Definition cache_key (provider : CloudProvider) (resource_id : string) : string :=
  provider_str provider +:+ ":" +:+ resource_id.

(** The body of [get_resource_details]. *)
Definition get_resource_details_body (provider : CloudProvider)
  (resource_id : string) : M value :=
  let! cached_data := cache_manager_get (cache_key provider resource_id) in
  if truthy cached_data then ret cached_data
  else
    let! details := _fetch_resource_details provider resource_id in
    let! _ := cache_manager_set (cache_key provider resource_id) details in
    ret details.

(** [get_resource_details] as decorated with [lru_cache(maxsize=128)]: a
    call whose arguments are in the table returns the stored result without
    running the body; a raised exception is not stored. *)
Definition get_resource_details (provider : CloudProvider)
  (resource_id : string) : M value :=
  fun s =>
    match lru_find (provider, resource_id) (lru s) with
    | Some v => (inr v, set_lru (lru_touch (provider, resource_id) v (lru s)) s)
    | None =>
        match get_resource_details_body provider resource_id s with
        | (inr v, s') =>
            (inr v, set_lru (lru_store (provider, resource_id) v (lru s')) s')
        | (inl e, s') => (inl e, s')
        end
    end.

Definition _validate_resource_exists (provider : CloudProvider)
  (resource_id : string) : M bool :=
  fun s =>
    match get_resource_details provider resource_id s with
    | (inr _, s') => (inr true, s')
    | (inl _, s') => (inr false, s')
    end.

(** A run of [get_resource_details] calls, results dropped. *)
Fixpoint call_all (calls : list (CloudProvider * string)) (s : State) : State :=
  match calls with
  | [] => s
  | (provider, resource_id) :: r =>
      call_all r (snd (get_resource_details provider resource_id s))
  end.

(** * Properties *)

(** ** Dictionaries *)

Section DictFacts.
Context {V : Type}.
Implicit Types (d : list (string * V)) (k : string) (v : V).

Lemma dict_get_In k v d : dict_get k d = Some v -> In (k, v) d.
Proof.
  induction d as [|[k' v'] r IH]; simpl; [discriminate|].
  destruct (String.eqb_spec k k') as [->|Hne].
  - intros [= ->]. now left.
  - intros H. right. auto.
Qed.

Lemma dict_get_None_keys k d : dict_get k d = None <-> ~ In k (dict_keys d).
Proof.
  induction d as [|[k' v'] r IH]; simpl.
  - split; [intros _ []|reflexivity].
  - destruct (String.eqb_spec k k') as [->|Hne].
    + split; [discriminate|]. intros H. exfalso. apply H. now left.
    + rewrite IH. split.
      * intros H [Heq|Hin]; [congruence|auto].
      * intros H Hin. apply H. now right.
Qed.

Lemma In_dict_get k v d : NoDup (dict_keys d) -> In (k, v) d -> dict_get k d = Some v.
Proof.
  induction d as [|[k' v'] r IH]; simpl; [intros _ []|].
  intros Hnd. apply NoDup_cons in Hnd as [Hnotin Hnd].
  destruct (String.eqb_spec k k') as [->|Hne].
  - intros [[= ->]|Hin]; [reflexivity|].
    exfalso. apply Hnotin. apply list_elem_of_In.
    change k' with (fst (k', v)). now apply in_map.
  - intros [[= -> ->]|Hin]; [congruence|auto].
Qed.

Lemma dict_del_absent k d : dict_get k d = None -> dict_del k d = d.
Proof.
  induction d as [|[k' v'] r IH]; simpl; [reflexivity|].
  destruct (String.eqb_spec k k'); [discriminate|].
  intros H. now rewrite IH.
Qed.

Lemma dict_del_length k v d :
  dict_get k d = Some v -> S (length (dict_del k d)) = length d.
Proof.
  induction d as [|[k' v'] r IH]; simpl; [discriminate|].
  destruct (String.eqb_spec k k'); [reflexivity|].
  intros H. simpl. now rewrite IH.
Qed.

Lemma dict_del_length_le k d : (length (dict_del k d) <= length d)%nat.
Proof.
  induction d as [|[k' v'] r IH]; simpl; [lia|].
  destruct (String.eqb k k'); simpl; lia.
Qed.

Lemma dict_get_del_ne k k' d : k' <> k -> dict_get k' (dict_del k d) = dict_get k' d.
Proof.
  intros Hne. induction d as [|[k0 v0] r IH]; simpl; [reflexivity|].
  destruct (String.eqb_spec k k0) as [->|Hk].
  - destruct (String.eqb_spec k' k0); [congruence|reflexivity].
  - simpl. now rewrite IH.
Qed.

Lemma dict_keys_del_incl k d x : In x (dict_keys (dict_del k d)) -> In x (dict_keys d).
Proof.
  induction d as [|[k0 v0] r IH]; simpl; [auto|].
  destruct (String.eqb k k0); simpl; intuition.
Qed.

Lemma dict_del_NoDup k d : NoDup (dict_keys d) -> NoDup (dict_keys (dict_del k d)).
Proof.
  induction d as [|[k0 v0] r IH]; simpl; [auto|].
  intros Hnd. apply NoDup_cons in Hnd as [Hnotin Hnd].
  destruct (String.eqb k k0); [assumption|].
  simpl. apply NoDup_cons. split; [|auto].
  intros Hin. apply Hnotin. apply list_elem_of_In.
  apply list_elem_of_In in Hin. eapply dict_keys_del_incl, Hin.
Qed.

Lemma dict_get_del_eq k d : NoDup (dict_keys d) -> dict_get k (dict_del k d) = None.
Proof.
  induction d as [|[k0 v0] r IH]; simpl; [reflexivity|].
  intros Hnd. apply NoDup_cons in Hnd as [Hnotin Hnd].
  destruct (String.eqb_spec k k0) as [->|Hk].
  - apply dict_get_None_keys. intros Hin. apply Hnotin. now apply list_elem_of_In.
  - simpl. destruct (String.eqb_spec k k0); [congruence|auto].
Qed.

Lemma dict_get_set_eq k v d : dict_get k (dict_set k v d) = Some v.
Proof.
  induction d as [|[k0 v0] r IH]; simpl.
  - now rewrite String.eqb_refl.
  - destruct (String.eqb_spec k k0) as [->|Hk]; simpl.
    + now rewrite String.eqb_refl.
    + destruct (String.eqb_spec k k0); [congruence|assumption].
Qed.

Lemma dict_get_set_ne k k' v d : k' <> k -> dict_get k' (dict_set k v d) = dict_get k' d.
Proof.
  intros Hne. induction d as [|[k0 v0] r IH]; simpl.
  - destruct (String.eqb_spec k' k); [congruence|reflexivity].
  - destruct (String.eqb_spec k k0) as [->|Hk]; simpl.
    + destruct (String.eqb_spec k' k0); [congruence|reflexivity].
    + now rewrite IH.
Qed.

Lemma dict_set_length_le k v d : (length (dict_set k v d) <= S (length d))%nat.
Proof.
  induction d as [|[k0 v0] r IH]; simpl; [lia|].
  destruct (String.eqb k k0); simpl; lia.
Qed.

Lemma dict_keys_set_incl k v d x :
  In x (dict_keys (dict_set k v d)) -> x = k \/ In x (dict_keys d).
Proof.
  induction d as [|[k0 v0] r IH]; simpl; [intuition|].
  destruct (String.eqb_spec k k0) as [->|Hk]; simpl; intuition.
Qed.

Lemma dict_set_NoDup k v d : NoDup (dict_keys d) -> NoDup (dict_keys (dict_set k v d)).
Proof.
  induction d as [|[k0 v0] r IH]; simpl.
  - intros _. apply NoDup_singleton.
  - intros Hnd. apply NoDup_cons in Hnd as [Hnotin Hnd].
    destruct (String.eqb_spec k k0) as [->|Hk]; simpl.
    + apply NoDup_cons. auto.
    + apply NoDup_cons. split; [|auto].
      intros Hin. apply list_elem_of_In in Hin.
      apply dict_keys_set_incl in Hin as [Heq|Hin]; [congruence|].
      apply Hnotin. now apply list_elem_of_In.
Qed.

End DictFacts.

(** ** CacheManager: the scan for the oldest entry *)

Import CacheManager.

Lemma min_from_In best rest : In (min_from best rest) (best :: rest).
Proof.
  revert best. induction rest as [|x r IH]; intros best; simpl.
  - now left.
  - destruct (timestamp x <? timestamp best).
    + right. apply IH.
    + destruct (IH best) as [H|H]; [now left|right; now right].
Qed.

Lemma min_from_le_best best rest : timestamp (min_from best rest) <= timestamp best.
Proof.
  revert best. induction rest as [|x r IH]; intros best; simpl; [lia|].
  destruct (Z.ltb_spec (timestamp x) (timestamp best)).
  - specialize (IH x). lia.
  - apply IH.
Qed.

Lemma min_from_le best rest x :
  In x (best :: rest) -> timestamp (min_from best rest) <= timestamp x.
Proof.
  revert best. induction rest as [|y r IH]; intros best.
  - intros [->|[]]. simpl. lia.
  - intros [->|[->|Hin]]; simpl.
    + destruct (Z.ltb_spec (timestamp y) (timestamp x)).
      * pose proof (min_from_le_best y r). lia.
      * apply min_from_le_best.
    + destruct (Z.ltb_spec (timestamp x) (timestamp best)).
      * apply min_from_le_best.
      * pose proof (min_from_le_best best r). lia.
    + destruct (timestamp y <? timestamp best); apply IH; now right.
Qed.

(** On a non-empty dict the scan returns the key of a stored entry whose
    timestamp no stored entry undercuts. *)
Lemma oldest_key_spec (c : list (string * entry)) :
  c <> [] -> NoDup (dict_keys c) ->
  exists oldest e,
    oldest_key c = Some oldest /\
    dict_get oldest c = Some e /\
    forall k' e', dict_get k' c = Some e' -> snd e <= snd e'.
Proof.
  destruct c as [|x r]; [congruence|]. intros _ Hnd.
  pose proof (min_from_In x r) as Hin.
  destruct (min_from x r) as [k e] eqn:Hmin.
  exists k, e. split; [simpl; now rewrite Hmin|].
  split; [now apply In_dict_get|].
  intros k' e' Hget. apply dict_get_In in Hget.
  pose proof (min_from_le x r (k', e') Hget) as Hle.
  now rewrite Hmin in Hle.
Qed.

(** ** CacheManager: the invariant of reachable caches *)

Lemma get_inv m l self key now : inv m l self -> inv m l (snd (get self key now)).
Proof.
  intros (Hm & Hl & Hnd & Hlen). unfold get.
  destruct (dict_get key (cache self)) as [[v ts]|]; [|now repeat split].
  destruct (now - ts <? timedelta_seconds (ttl self)); [now repeat split|].
  simpl. repeat split; simpl; auto using dict_del_NoDup.
  pose proof (dict_del_length_le key (cache self)). lia.
Qed.

Lemma set_inv m l self key v now self' :
  inv m l self -> set self key v now = inr self' -> inv m l self'.
Proof.
  intros (Hm & Hl & Hnd & Hlen). unfold set.
  destruct (Z.leb_spec (max_size self) (Z.of_nat (length (cache self)))) as [Hfull|Hroom].
  - destruct (oldest_key (cache self)) as [oldest|] eqn:Hold; [|discriminate].
    intros [= <-]. repeat split; simpl; auto using dict_set_NoDup, dict_del_NoDup.
    destruct (cache self) as [|x r] eqn:Hc; [discriminate|].
    destruct (oldest_key_spec (x :: r)) as (o & e & Ho & Hget & _);
      [discriminate|assumption|].
    rewrite Hold in Ho. injection Ho as <-.
    pose proof (dict_del_length _ _ _ Hget) as Hdel.
    pose proof (dict_set_length_le key (v, now) (dict_del oldest (x :: r))).
    lia.
  - intros [= <-]. repeat split; simpl; auto using dict_set_NoDup.
    pose proof (dict_set_length_le key (v, now) (cache self)). lia.
Qed.

Lemma reachable_inv m l self : 0 <= m -> reachable m l self -> inv m l self.
Proof.
  intros Hm Hreach. induction Hreach.
  - repeat split; simpl; [apply NoDup_nil_2|lia].
  - now apply get_inv.
  - eapply set_inv; eassumption.
Qed.

(** [set] raises only on an empty cache whose bound is not positive. *)
Lemma set_raises self key v now e :
  set self key v now = inl e -> cache self = [] /\ max_size self <= 0.
Proof.
  unfold set.
  destruct (Z.leb_spec (max_size self) (Z.of_nat (length (cache self)))) as [Hfull|Hroom];
    [|discriminate].
  destruct (cache self) as [|x r]; [|discriminate].
  simpl in *. intros _. split; [reflexivity|lia].
Qed.

(** What a successful [set] leaves under its key. *)
Lemma set_stores self key v t0 self' :
  set self key v t0 = inr self' ->
  dict_get key (cache self') = Some (v, t0) /\
  ttl self' = ttl self /\ max_size self' = max_size self.
Proof.
  unfold set.
  destruct (max_size self <=? Z.of_nat (length (cache self))).
  - destruct (oldest_key (cache self)); [|discriminate].
    intros [= <-]. simpl. split; [apply dict_get_set_eq|split; reflexivity].
  - intros [= <-]. simpl. split; [apply dict_get_set_eq|split; reflexivity].
Qed.

(** C2. From an empty cache with a positive bound, through any sequence of
    [set] calls (and [get] calls between them): the cache holds at most
    [max_size] entries; every [set] succeeds and keeps the bound; and a [set]
    that finds the cache at or above [max_size] first deletes exactly one
    entry - one stored under a key whose timestamp no entry present
    undercuts - leaving all other keys as they were, and then stores the new
    pair. *)
Theorem set_bounded_oldest_evicted (m l : Z) (self : CacheManager.t) :
  0 < m -> reachable m l self ->
  Z.of_nat (length (cache self)) <= m /\
  forall key v now,
    (exists self', set self key v now = inr self' /\
                   Z.of_nat (length (cache self')) <= m) /\
    (m <= Z.of_nat (length (cache self)) ->
     exists oldest e,
       oldest_key (cache self) = Some oldest /\
       dict_get oldest (cache self) = Some e /\
       (forall k' e', dict_get k' (cache self) = Some e' -> snd e <= snd e') /\
       S (length (dict_del oldest (cache self))) = length (cache self) /\
       dict_get oldest (dict_del oldest (cache self)) = None /\
       (forall k', k' <> oldest ->
                   dict_get k' (dict_del oldest (cache self)) = dict_get k' (cache self)) /\
       set self key v now =
         inr (with_cache self (dict_set key (v, now) (dict_del oldest (cache self))))).
Proof.
  intros Hpos Hreach.
  assert (Hinv : inv m l self) by (apply reachable_inv; [lia|assumption]).
  destruct Hinv as (Hm & Hl & Hnd & Hlen).
  split; [assumption|]. intros key v now. split.
  - destruct (set self key v now) as [e|self'] eqn:Hset.
    + apply set_raises in Hset as [_ Hle]. lia.
    + exists self'. split; [reflexivity|].
      assert (Hinv' : inv m l self').
      { eapply set_inv; [|exact Hset]. now repeat split. }
      apply Hinv'.
  - intros Hfull.
    assert (Hne : cache self <> []).
    { intros Heq. rewrite Heq in Hfull. simpl in Hfull. lia. }
    destruct (oldest_key_spec (cache self) Hne Hnd) as (oldest & e & Ho & Hget & Hmin).
    exists oldest, e. repeat split; auto.
    + eapply dict_del_length, Hget.
    + now apply dict_get_del_eq.
    + intros k' Hk. now apply dict_get_del_ne.
    + unfold set. rewrite Hm.
      destruct (Z.leb_spec m (Z.of_nat (length (cache self)))); [|lia].
      now rewrite Ho.
Qed.

(** C3. [get] on a key whose entry is younger than [ttl] returns the stored
    value and leaves the cache alone; on an entry of age [ttl] or more it
    deletes the entry and returns [None]; on a missing key it returns
    [None].  Hence after [set] has stored a value at [t0], a [get] at [now]
    returns it when [now - t0] is below [ttl] and [None] otherwise. *)
Theorem get_respects_ttl (self : CacheManager.t) (key : string) (now : Z) :
  (forall v ts,
     dict_get key (cache self) = Some (v, ts) ->
     now - ts < timedelta_seconds (ttl self) ->
     get self key now = (v, self)) /\
  (forall v ts,
     dict_get key (cache self) = Some (v, ts) ->
     timedelta_seconds (ttl self) <= now - ts ->
     get self key now = (VNone, with_cache self (dict_del key (cache self))) /\
     (NoDup (dict_keys (cache self)) ->
      dict_get key (cache (snd (get self key now))) = None)) /\
  (dict_get key (cache self) = None -> get self key now = (VNone, self)) /\
  (forall v t0 self',
     set self key v t0 = inr self' ->
     dict_get key (cache self') = Some (v, t0) /\
     (now - t0 < timedelta_seconds (ttl self) -> fst (get self' key now) = v) /\
     (timedelta_seconds (ttl self) <= now - t0 -> fst (get self' key now) = VNone)).
Proof.
  repeat split.
  - intros v ts Hget Hage. unfold get. rewrite Hget.
    destruct (Z.ltb_spec (now - ts) (timedelta_seconds (ttl self))); [reflexivity|lia].
  - unfold get. rewrite H.
    destruct (Z.ltb_spec (now - ts) (timedelta_seconds (ttl self))); [lia|reflexivity].
  - intros Hnd. unfold get. rewrite H.
    destruct (Z.ltb_spec (now - ts) (timedelta_seconds (ttl self))); [lia|].
    simpl. now apply dict_get_del_eq.
  - intros Hget. unfold get. now rewrite Hget.
  - now apply set_stores in H.
  - intros Hage. apply set_stores in H as (Hget & Httl & _).
    unfold get. rewrite Hget, Httl.
    destruct (Z.ltb_spec (now - t0) (timedelta_seconds (ttl self))); [reflexivity|lia].
  - intros Hage. apply set_stores in H as (Hget & Httl & _).
    unfold get. rewrite Hget, Httl.
    destruct (Z.ltb_spec (now - t0) (timedelta_seconds (ttl self))); [lia|reflexivity].
Qed.

(** ** Credential validation *)

Lemma required_fields_total provider :
  exists required, table_get provider required_fields = Some required.
Proof. destruct provider; eexists; reflexivity. Qed.

Lemma missing_fields_dom required (record record' : gmap string string) :
  dom record' = dom record ->
  missing_fields required record' = missing_fields required record.
Proof.
  intros Hdom. unfold missing_fields. apply list_filter_iff. intros field.
  rewrite <- !not_elem_of_dom. now rewrite Hdom.
Qed.

(** C7. Every provider has a row in the requirement table.  The missing
    fields are the required names that are not keys of the provider's
    record, in table order; validation succeeds when there is none and
    otherwise raises a [ValueError] whose message lists all of them.  Only
    the keys of the record matter: a record with every required key
    validates, and two records with the same keys validate alike whatever
    their values. *)
Theorem validate_reports_missing_fields
  (creds : list (CloudProvider * gmap string string)) (provider : CloudProvider) :
  exists required,
    table_get provider required_fields = Some required /\
    let record := credentials_get creds provider in
    let missing := missing_fields required record in
    (forall field, field ∈ missing <-> field ∈ required /\ field ∉ dom record) /\
    (missing = [] -> _validate_provider_credentials creds provider = inr tt) /\
    (missing <> [] ->
     _validate_provider_credentials creds provider =
       inl (ValueError ("Missing required fields for " +:+ provider_str provider
                        +:+ ": " +:+ join ", " missing))) /\
    ((forall field, field ∈ required -> field ∈ dom record) ->
     _validate_provider_credentials creds provider = inr tt) /\
    (forall creds',
       dom (credentials_get creds' provider) = dom record ->
       _validate_provider_credentials creds' provider =
         _validate_provider_credentials creds provider).
Proof.
  destruct (required_fields_total provider) as [required Hreq].
  exists required. split; [assumption|]. cbv zeta.
  assert (Hmem : forall field,
             field ∈ missing_fields required (credentials_get creds provider) <->
             field ∈ required /\ field ∉ dom (credentials_get creds provider)).
  { intros field. unfold missing_fields. rewrite list_elem_of_filter.
    rewrite not_elem_of_dom. tauto. }
  assert (Hok : missing_fields required (credentials_get creds provider) = [] ->
                _validate_provider_credentials creds provider = inr tt).
  { intros Hnone. unfold _validate_provider_credentials. now rewrite Hreq, Hnone. }
  split; [exact Hmem|]. split; [exact Hok|]. split; [|split].
  - intros Hsome. unfold _validate_provider_credentials. rewrite Hreq.
    destruct (missing_fields required (credentials_get creds provider));
      [congruence|reflexivity].
  - intros Hall. apply Hok. apply elem_of_nil_inv. intros field Hin.
    apply Hmem in Hin as [Hin Hnot]. auto.
  - intros creds' Hdom. unfold _validate_provider_credentials. rewrite Hreq.
    now rewrite (missing_fields_dom _ _ _ Hdom).
Qed.

(** ** The retry policy *)

(** Both waits the configuration can ask for are 4 seconds, which is also
    what the specification's formula gives at these attempts. *)
Lemma waits_are_four (i : nat) :
  (1 <= i < 3)%nat ->
  wait_exponential the_retry_config i = 4 /\ spec_wait 1 4 10 i = 4.
Proof.
  intros Hi. assert (i = 1%nat \/ i = 2%nat) as [-> | ->] by lia; now vm_compute.
Qed.

(** C4 (as the program has it). An operation that leaves the attempt counter
    and the sleep log alone is run at least once and at most 3 times.  The
    first success is returned at once, in the state it left.  Each failed
    attempt but the third is followed by a sleep of 4 seconds, the clamped
    exponential wait.  After a third failure the caller gets [RetryError]
    around that third failure. *)
Theorem retry_three_attempts {A : Type} (op : M A) (s : State) :
  (forall s0, attempts (snd (op s0)) = attempts s0 /\
              sleeps (snd (op s0)) = sleeps s0) ->
  let r := retry the_retry_config op s in
  let n := (attempts (snd r) - attempts s)%nat in
  (1 <= n <= 3)%nat /\
  sleeps (snd r) = (repeat 4 (n - 1) ++ sleeps s)%list /\
  (forall i, (1 <= i < 3)%nat ->
             wait_exponential the_retry_config i = 4 /\ spec_wait 1 4 10 i = 4) /\
  match op (tick_attempts s) with
  | (inr v, s1) => r = (inr v, s1) /\ n = 1%nat
  | (inl e1, s1) =>
      match op (tick_attempts (push_sleep 4 s1)) with
      | (inr v, s2) => r = (inr v, s2) /\ n = 2%nat
      | (inl e2, s2) =>
          match op (tick_attempts (push_sleep 4 s2)) with
          | (inr v, s3) => r = (inr v, s3) /\ n = 3%nat
          | (inl e3, s3) => r = (inl (RetryError e3), s3) /\ n = 3%nat
          end
      end
  end.
Proof.
  intros Hframe. cbv zeta. unfold retry. simpl stop_after_attempt.
  change (3 - 1)%nat with 2%nat. simpl retry_from.
  change (wait_exponential the_retry_config 1) with 4.
  change (wait_exponential the_retry_config 2) with 4.
  pose proof (Hframe (tick_attempts s)) as [Ha1 Hs1].
  destruct (op (tick_attempts s)) as [[e1|v1] s1]; simpl in Ha1, Hs1.
  2:{ simpl. rewrite Ha1, Hs1.
      replace (S (attempts s) - attempts s)%nat with 1%nat by lia.
      repeat split; try lia; apply waits_are_four; assumption. }
  pose proof (Hframe (tick_attempts (push_sleep 4 s1))) as [Ha2 Hs2].
  destruct (op (tick_attempts (push_sleep 4 s1))) as [[e2|v2] s2]; simpl in Ha2, Hs2.
  2:{ simpl. rewrite Ha2, Hs2, Ha1, Hs1.
      replace (S (S (attempts s)) - attempts s)%nat with 2%nat by lia.
      repeat split; try lia; apply waits_are_four; assumption. }
  pose proof (Hframe (tick_attempts (push_sleep 4 s2))) as [Ha3 Hs3].
  destruct (op (tick_attempts (push_sleep 4 s2))) as [[e3|v3] s3]; simpl in Ha3, Hs3;
    simpl; rewrite Ha3, Hs3, Ha2, Hs2, Ha1, Hs1;
    replace (S (S (S (attempts s))) - attempts s)%nat with 3%nat by lia;
    repeat split; try lia; apply waits_are_four; assumption.
Qed.

(** A failed retry always carries [RetryError]. *)
Lemma retry_from_failure {A : Type} cfg (op : M A) remaining k s e s' :
  retry_from cfg remaining k op s = (inl e, s') -> exists last, e = RetryError last.
Proof.
  revert k s. induction remaining as [|r IH]; intros k s; simpl;
    destruct (op (tick_attempts s)) as [[e0|v] s0]; try discriminate.
  - intros [= <- <-]. now exists e0.
  - apply IH.
Qed.

(** What the operation, the attempt counter and the sleep log leave alone,
    retrying leaves alone. *)
Lemma retry_from_preserves {A X : Type} (f : State -> X) cfg (op : M A) :
  (forall s, f (tick_attempts s) = f s) ->
  (forall w s, f (push_sleep w s) = f s) ->
  (forall s, f (snd (op s)) = f s) ->
  forall remaining k s, f (snd (retry_from cfg remaining k op s)) = f s.
Proof.
  intros Htick Hpush Hop. induction remaining as [|r IH]; intros k s; simpl.
  - specialize (Hop (tick_attempts s)).
    destruct (op (tick_attempts s)) as [[e0|v] s0]; simpl in *;
      now rewrite Hop, Htick.
  - specialize (Hop (tick_attempts s)).
    destruct (op (tick_attempts s)) as [[e0|v] s0]; simpl in *.
    + now rewrite IH, Hpush, Hop, Htick.
    + now rewrite Hop, Htick.
Qed.

(** ** The orchestrator *)

(** The lookup never raises; it leaves the cache as [CacheManager.get]
    does and touches nothing else but the clock. *)
Lemma cache_manager_get_spec key s :
  exists s0,
    cache_manager_get key s =
      (inr (fst (CacheManager.get (cache_manager s) key (clock (reads s)))), s0) /\
    cache_manager s0 = snd (CacheManager.get (cache_manager s) key (clock (reads s))) /\
    lru s0 = lru s /\ credentials s0 = credentials s /\ clients s0 = clients s /\
    api_calls s0 = api_calls s /\ fetch_calls s0 = fetch_calls s /\
    attempts s0 = attempts s /\ sleeps s0 = sleeps s.
Proof.
  unfold cache_manager_get, CacheManager.get.
  destruct (dict_get key (cache (cache_manager s))) as [[v ts]|];
    eexists; repeat split; reflexivity.
Qed.

(** One attempt at fetching changes nothing but the count of API calls. *)
Lemma fetch_body_preserves {X : Type} (f : State -> X) provider resource_id :
  (forall s, f (tick_api_calls s) = f s) ->
  forall s, f (snd (fetch_resource_details_body provider resource_id s)) = f s.
Proof.
  intros Htick s. unfold fetch_resource_details_body, describe_instances.
  destruct provider; simpl;
    try reflexivity;
    destruct (String.prefix "i-" resource_id); simpl; try reflexivity;
    destruct (existsb (provider_eqb AWS) (clients s)); simpl; auto.
Qed.

Lemma fetch_resource_details_preserves {X : Type} (f : State -> X) provider resource_id :
  (forall s, f (tick_api_calls s) = f s) ->
  (forall s, f (tick_attempts s) = f s) ->
  (forall w s, f (push_sleep w s) = f s) ->
  (forall s, f (tick_fetch_calls s) = f s) ->
  forall s, f (snd (_fetch_resource_details provider resource_id s)) = f s.
Proof.
  intros Hapi Htick Hpush Hfetch s. unfold _fetch_resource_details, retry.
  rewrite (retry_from_preserves f); auto using fetch_body_preserves.
Qed.

(** A call of the decorated fetch counts once. *)
Lemma fetch_resource_details_counts provider resource_id s :
  fetch_calls (snd (_fetch_resource_details provider resource_id s)) =
    S (fetch_calls s).
Proof.
  unfold _fetch_resource_details, retry.
  rewrite (retry_from_preserves fetch_calls); auto using fetch_body_preserves.
Qed.

Lemma cache_manager_set_preserves key v s :
  let s' := snd (cache_manager_set key v s) in
  lru s' = lru s /\ fetch_calls s' = fetch_calls s /\ api_calls s' = api_calls s /\
  attempts s' = attempts s /\ sleeps s' = sleeps s /\ credentials s' = credentials s.
Proof.
  unfold cache_manager_set.
  destruct (CacheManager.set (cache_manager s) key v (clock (reads s)));
    repeat split; reflexivity.
Qed.

(** A raising [set] leaves the state as it found it. *)
Lemma cache_manager_set_raises key v s e s' :
  cache_manager_set key v s = (inl e, s') -> s' = s.
Proof.
  unfold cache_manager_set.
  destruct (CacheManager.set (cache_manager s) key v (clock (reads s)));
    now intros [= <-].
Qed.

(** The body of [get_resource_details], case by case. *)
Lemma get_resource_details_body_cases provider resource_id s :
  let key := cache_key provider resource_id in
  let g := CacheManager.get (cache_manager s) key (clock (reads s)) in
  exists s0,
    cache_manager_get key s = (inr (fst g), s0) /\
    cache_manager s0 = snd g /\ lru s0 = lru s /\
    fetch_calls s0 = fetch_calls s /\ api_calls s0 = api_calls s /\
    if truthy (fst g)
    then get_resource_details_body provider resource_id s = (inr (fst g), s0)
    else
      match _fetch_resource_details provider resource_id s0 with
      | (inl e, s1) => get_resource_details_body provider resource_id s = (inl e, s1)
      | (inr details, s1) =>
          match cache_manager_set key details s1 with
          | (inl e, s2) =>
              get_resource_details_body provider resource_id s = (inl e, s2)
          | (inr _, s2) =>
              get_resource_details_body provider resource_id s = (inr details, s2)
          end
      end.
Proof.
  cbv zeta.
  destruct (cache_manager_get_spec (cache_key provider resource_id) s)
    as (s0 & Hget & Hcm & Hlru & _ & _ & Hapi & Hfetch & _ & _).
  exists s0. repeat (split; [assumption|]).
  unfold get_resource_details_body, bind. rewrite Hget.
  destruct (truthy _); [reflexivity|].
  destruct (_fetch_resource_details provider resource_id s0) as [[e|details] s1];
    [reflexivity|].
  destruct (cache_manager_set _ details s1) as [[e|[]] s2]; reflexivity.
Qed.

(** The body never touches the [lru_cache] table. *)
Lemma get_resource_details_body_lru provider resource_id s :
  lru (snd (get_resource_details_body provider resource_id s)) = lru s.
Proof.
  destruct (get_resource_details_body_cases provider resource_id s)
    as (s0 & _ & _ & Hlru & _ & _ & Hcases).
  destruct (truthy _); [now rewrite Hcases|].
  pose proof (fetch_resource_details_preserves lru provider resource_id
                ltac:(reflexivity) ltac:(reflexivity) ltac:(reflexivity)
                ltac:(reflexivity) s0) as Hf.
  destruct (_fetch_resource_details provider resource_id s0) as [[e|details] s1];
    simpl in Hf; [rewrite Hcases; simpl; congruence|].
  pose proof (cache_manager_set_preserves (cache_key provider resource_id) details s1)
    as (Hl & _).
  destruct (cache_manager_set _ details s1) as [[e|[]] s2];
    rewrite Hcases; simpl in *; congruence.
Qed.

(** The body calls the decorated fetch once when the lookup yields a falsy
    value, and not at all otherwise. *)
Lemma get_resource_details_body_fetches provider resource_id s :
  fetch_calls (snd (get_resource_details_body provider resource_id s)) =
    if truthy (fst (CacheManager.get (cache_manager s)
                      (cache_key provider resource_id) (clock (reads s))))
    then fetch_calls s else S (fetch_calls s).
Proof.
  destruct (get_resource_details_body_cases provider resource_id s)
    as (s0 & _ & _ & _ & Hfc & _ & Hcases).
  destruct (truthy _); [now rewrite Hcases|].
  pose proof (fetch_resource_details_counts provider resource_id s0) as Hf.
  destruct (_fetch_resource_details provider resource_id s0) as [[e|details] s1];
    simpl in Hf; [rewrite Hcases; simpl; congruence|].
  pose proof (cache_manager_set_preserves (cache_key provider resource_id) details s1)
    as (_ & Hc & _).
  destruct (cache_manager_set _ details s1) as [[e|[]] s2];
    rewrite Hcases; simpl in *; congruence.
Qed.

Lemma args_eqb_refl a : args_eqb a a = true.
Proof.
  destruct a as [p r]. unfold args_eqb. simpl.
  rewrite String.eqb_refl. now destruct p.
Qed.

Lemma lru_find_touch a v l : lru_find a (lru_touch a v l) = Some v.
Proof. unfold lru_touch. simpl. now rewrite args_eqb_refl. Qed.

Lemma lru_find_store a v l : lru_find a l = None -> lru_find a (lru_store a v l) = Some v.
Proof.
  intros Hnone. unfold lru_store. rewrite Hnone.
  destruct (lru_maxsize <=? length l)%nat; simpl; now rewrite args_eqb_refl.
Qed.

(** Each attempt calls the provider API at most once, so a retried
    operation calls it at most once per attempt allowed. *)
Lemma retry_from_api_calls {A : Type} cfg (op : M A) :
  (forall s, (api_calls (snd (op s)) <= S (api_calls s))%nat) ->
  forall remaining k s,
    (api_calls (snd (retry_from cfg remaining k op s)) <=
     api_calls s + S remaining)%nat.
Proof.
  intros Hop. induction remaining as [|r IH]; intros k s; simpl.
  - specialize (Hop (tick_attempts s)).
    destruct (op (tick_attempts s)) as [[e0|v] s0]; simpl in *; lia.
  - specialize (Hop (tick_attempts s)).
    destruct (op (tick_attempts s)) as [[e0|v] s0]; simpl in *; [|lia].
    specialize (IH (S k) (push_sleep (wait_exponential cfg k) s0)).
    simpl in IH. lia.
Qed.

Lemma fetch_body_api_calls provider resource_id s :
  (api_calls (snd (fetch_resource_details_body provider resource_id s)) <=
   S (api_calls s))%nat.
Proof.
  unfold fetch_resource_details_body, describe_instances.
  destruct provider; simpl; try lia;
    destruct (String.prefix "i-" resource_id); simpl; try lia;
    destruct (existsb (provider_eqb AWS) (clients s)); simpl; lia.
Qed.

Lemma fetch_resource_details_api_calls provider resource_id s :
  (api_calls (snd (_fetch_resource_details provider resource_id s)) <=
   api_calls s + 3)%nat.
Proof.
  unfold _fetch_resource_details, retry.
  pose proof (retry_from_api_calls the_retry_config
                (fetch_resource_details_body provider resource_id)
                (fetch_body_api_calls provider resource_id)
                2 1%nat (tick_fetch_calls s)) as H.
  simpl in H. simpl. lia.
Qed.

(** The body calls the provider API at most three times. *)
Lemma get_resource_details_body_api_calls provider resource_id s :
  (api_calls (snd (get_resource_details_body provider resource_id s)) <=
   api_calls s + 3)%nat.
Proof.
  destruct (get_resource_details_body_cases provider resource_id s)
    as (s0 & _ & _ & _ & _ & Hapi & Hcases).
  destruct (truthy _); [rewrite Hcases; simpl; lia|].
  pose proof (fetch_resource_details_api_calls provider resource_id s0) as Hf.
  destruct (_fetch_resource_details provider resource_id s0) as [[e|details] s1];
    simpl in Hf; [rewrite Hcases; simpl; lia|].
  pose proof (cache_manager_set_preserves (cache_key provider resource_id) details s1)
    as (_ & _ & Hc & _).
  destruct (cache_manager_set _ details s1) as [[e|[]] s2];
    rewrite Hcases; simpl in *; lia.
Qed.

(** C6 (as the program has it). When a call of [get_resource_details]
    returns, the same call repeated returns the same value from the
    [lru_cache] table: the body does not run again, so the clock, the cache,
    the fetch and the provider API are left alone.  Over both calls the
    retried fetch has been entered at most once and the provider API called
    at most three times - the attempts of the first call. *)
Theorem repeated_call_fetches_once provider resource_id s v s1 :
  get_resource_details provider resource_id s = (inr v, s1) ->
  exists s2,
    get_resource_details provider resource_id s1 = (inr v, s2) /\
    (fetch_calls s2 - fetch_calls s <= 1)%nat /\
    fetch_calls s2 = fetch_calls s1 /\ api_calls s2 = api_calls s1 /\
    attempts s2 = attempts s1 /\ reads s2 = reads s1 /\
    cache_manager s2 = cache_manager s1 /\
    (api_calls s2 - api_calls s <= 3)%nat.
Proof.
  intros Hcall.
  assert (Hmemo : lru_find (provider, resource_id) (lru s1) = Some v /\
                  (fetch_calls s1 - fetch_calls s <= 1)%nat /\
                  (api_calls s1 - api_calls s <= 3)%nat).
  { unfold get_resource_details in Hcall.
    destruct (lru_find (provider, resource_id) (lru s)) as [w|] eqn:Hfind.
    - injection Hcall as <- <-. simpl. split; [apply lru_find_touch|lia].
    - pose proof (get_resource_details_body_lru provider resource_id s) as Hlru.
      pose proof (get_resource_details_body_fetches provider resource_id s) as Hfc.
      pose proof (get_resource_details_body_api_calls provider resource_id s) as Hac.
      destruct (get_resource_details_body provider resource_id s) as [[e|w] s'];
        [discriminate|].
      injection Hcall as <- <-. simpl in *. split; [|split].
      + apply lru_find_store. now rewrite Hlru.
      + rewrite Hfc. destruct (truthy _); lia.
      + lia. }
  destruct Hmemo as (Hfind & Hle & Hapi).
  eexists. unfold get_resource_details at 1. rewrite Hfind.
  split; [reflexivity|]. simpl. repeat split; try reflexivity; assumption.
Qed.

(** On a miss of the [lru_cache] table the decorated function calls the
    fetch exactly as often as its body does. *)
Lemma get_resource_details_miss_fetches provider resource_id s :
  lru_find (provider, resource_id) (lru s) = None ->
  fetch_calls (snd (get_resource_details provider resource_id s)) =
    fetch_calls (snd (get_resource_details_body provider resource_id s)).
Proof.
  intros Hmiss. unfold get_resource_details. rewrite Hmiss.
  now destruct (get_resource_details_body provider resource_id s) as [[e|w] s'].
Qed.

(** C10 (as the program has it). An entry whose stored value is falsy
    does not count as a hit.  When the cache holds such a value under the
    key - young or expired - the lookup yields a falsy value (the stored one
    while it is young), and the body goes on to call the fetch; so does the
    decorated function whenever its arguments are not in the [lru_cache]
    table.  While they are in that table, the decorated function returns
    what the table holds and neither looks the key up nor fetches. *)
Theorem falsy_cached_value_refetched provider resource_id s v ts :
  dict_get (cache_key provider resource_id) (cache (cache_manager s)) = Some (v, ts) ->
  truthy v = false ->
  let looked_up :=
    fst (CacheManager.get (cache_manager s) (cache_key provider resource_id)
           (clock (reads s))) in
  truthy looked_up = false /\
  (clock (reads s) - ts < timedelta_seconds (ttl (cache_manager s)) -> looked_up = v) /\
  fetch_calls (snd (get_resource_details_body provider resource_id s)) =
    S (fetch_calls s) /\
  (lru_find (provider, resource_id) (lru s) = None ->
   fetch_calls (snd (get_resource_details provider resource_id s)) =
     S (fetch_calls s)) /\
  (forall w,
     lru_find (provider, resource_id) (lru s) = Some w ->
     fst (get_resource_details provider resource_id s) = inr w /\
     fetch_calls (snd (get_resource_details provider resource_id s)) = fetch_calls s /\
     reads (snd (get_resource_details provider resource_id s)) = reads s /\
     cache_manager (snd (get_resource_details provider resource_id s)) =
       cache_manager s).
Proof.
  intros Hstored Hfalsy. cbv zeta.
  assert (Hlook : truthy (fst (CacheManager.get (cache_manager s)
                                 (cache_key provider resource_id)
                                 (clock (reads s)))) = false).
  { unfold CacheManager.get. rewrite Hstored.
    now destruct (_ <? _). }
  split; [exact Hlook|]. split; [|split; [|split]].
  - intros Hyoung. unfold CacheManager.get. rewrite Hstored.
    destruct (Z.ltb_spec (clock (reads s) - ts)
                (timedelta_seconds (ttl (cache_manager s)))); [reflexivity|lia].
  - rewrite get_resource_details_body_fetches. now rewrite Hlook.
  - intros Hmiss. rewrite get_resource_details_miss_fetches by assumption.
    rewrite get_resource_details_body_fetches. now rewrite Hlook.
  - intros w Hhit. unfold get_resource_details. rewrite Hhit. repeat split.
Qed.

(** C8. When the arguments are not in the [lru_cache] table, the lookup
    yields a falsy value and the retried fetch fails, [get_resource_details]
    fails with that same failure - the [RetryError] of the exhausted retry -
    and nothing is stored: the cache is as the lookup left it, which is the
    cache as it was unless the key held an expired entry, and the
    [lru_cache] table is as it was. *)
Theorem failed_fetch_stores_nothing provider resource_id s cached s0 e s1 :
  lru_find (provider, resource_id) (lru s) = None ->
  cache_manager_get (cache_key provider resource_id) s = (inr cached, s0) ->
  truthy cached = false ->
  _fetch_resource_details provider resource_id s0 = (inl e, s1) ->
  get_resource_details provider resource_id s = (inl e, s1) /\
  (exists last, e = RetryError last) /\
  cache_manager s1 =
    snd (CacheManager.get (cache_manager s) (cache_key provider resource_id)
           (clock (reads s))) /\
  lru s1 = lru s /\
  (dict_get (cache_key provider resource_id) (cache (cache_manager s)) = None ->
   cache_manager s1 = cache_manager s) /\
  (forall v ts,
     dict_get (cache_key provider resource_id) (cache (cache_manager s)) = Some (v, ts) ->
     clock (reads s) - ts < timedelta_seconds (ttl (cache_manager s)) ->
     cache_manager s1 = cache_manager s) /\
  (forall v ts,
     dict_get (cache_key provider resource_id) (cache (cache_manager s)) = Some (v, ts) ->
     timedelta_seconds (ttl (cache_manager s)) <= clock (reads s) - ts ->
     cache (cache_manager s1) =
       dict_del (cache_key provider resource_id) (cache (cache_manager s))).
Proof.
  intros Hmiss Hget Hfalsy Hfetch.
  destruct (cache_manager_get_spec (cache_key provider resource_id) s)
    as (s0' & Hget' & Hcm & Hlru & _ & _ & _ & _ & _ & _).
  rewrite Hget in Hget'. injection Hget' as Hcached <-.
  assert (Hcm1 : cache_manager s1 = cache_manager s0).
  { pose proof (fetch_resource_details_preserves cache_manager provider resource_id
                  ltac:(reflexivity) ltac:(reflexivity) ltac:(reflexivity)
                  ltac:(reflexivity) s0) as Hf.
    now rewrite Hfetch in Hf. }
  assert (Hlru1 : lru s1 = lru s0).
  { pose proof (fetch_resource_details_preserves lru provider resource_id
                  ltac:(reflexivity) ltac:(reflexivity) ltac:(reflexivity)
                  ltac:(reflexivity) s0) as Hf.
    now rewrite Hfetch in Hf. }
  split; [|split; [|split; [|split; [|split; [|split]]]]].
  - unfold get_resource_details. rewrite Hmiss.
    unfold get_resource_details_body, bind. rewrite Hget, Hfalsy, Hfetch.
    reflexivity.
  - unfold _fetch_resource_details, retry in Hfetch.
    eapply retry_from_failure, Hfetch.
  - congruence.
  - congruence.
  - intros Habsent. rewrite Hcm1, Hcm. unfold CacheManager.get.
    now rewrite Habsent.
  - intros v ts Hstored Hyoung. rewrite Hcm1, Hcm. unfold CacheManager.get.
    rewrite Hstored.
    destruct (Z.ltb_spec (clock (reads s) - ts)
                (timedelta_seconds (ttl (cache_manager s)))); [reflexivity|lia].
  - intros v ts Hstored Hold. rewrite Hcm1, Hcm. unfold CacheManager.get.
    rewrite Hstored.
    destruct (Z.ltb_spec (clock (reads s) - ts)
                (timedelta_seconds (ttl (cache_manager s)))); [lia|reflexivity].
Qed.

(** C5 (what the program does). For the four providers whose branch is
    [pass], the retried fetch returns [None] at its first attempt, whatever
    the resource; and [get_resource_details] hands that [None] to its caller
    when neither table holds the arguments.  Only an AWS resource that is
    not an instance raises [NotImplementedError], which is retried and comes
    out inside [RetryError]. *)
Theorem unimplemented_fetch_returns_none resource_id s :
  (forall provider,
     provider_eqb provider AWS = false ->
     _fetch_resource_details provider resource_id s =
       (inr VNone, tick_attempts (tick_fetch_calls s))) /\
  (String.prefix "i-" resource_id = false ->
   fst (_fetch_resource_details AWS resource_id s) =
     inl (RetryError (NotImplementedError
                        "Fetch logic for CloudProvider.AWS is not implemented."))) /\
  (forall provider,
     provider_eqb provider AWS = false ->
     lru_find (provider, resource_id) (lru s) = None ->
     dict_get (cache_key provider resource_id) (cache (cache_manager s)) = None ->
     0 < max_size (cache_manager s) ->
     fst (get_resource_details provider resource_id s) = inr VNone).
Proof.
  split; [|split].
  - intros provider Hp. destruct provider; try discriminate; reflexivity.
  - intros Hprefix. unfold _fetch_resource_details, retry, fetch_resource_details_body.
    simpl. rewrite Hprefix. reflexivity.
  - intros provider Hp Hmiss Habsent Hpos.
    unfold get_resource_details. rewrite Hmiss.
    unfold get_resource_details_body, bind, cache_manager_get. rewrite Habsent.
    change (truthy VNone) with false. cbv beta iota.
    assert (Hf : _fetch_resource_details provider resource_id s =
                   (inr VNone, tick_attempts (tick_fetch_calls s)))
      by (destruct provider; try discriminate; reflexivity).
    rewrite Hf. unfold cache_manager_set.
    destruct (set _ _ _ _) as [e|c] eqn:Hset; [|reflexivity].
    apply set_raises in Hset as [_ Hle]. simpl in Hle. lia.
Qed.

(** *** Credentials are not consulted *)

Lemma retry_from_credentials {A : Type} cfg (op : M A) creds :
  (forall s, op (set_credentials creds s) =
             (fst (op s), set_credentials creds (snd (op s)))) ->
  forall remaining k s,
    retry_from cfg remaining k op (set_credentials creds s) =
      (fst (retry_from cfg remaining k op s),
       set_credentials creds (snd (retry_from cfg remaining k op s))).
Proof.
  intros Hop. induction remaining as [|r IH]; intros k s; simpl.
  - change (tick_attempts (set_credentials creds s))
      with (set_credentials creds (tick_attempts s)).
    rewrite Hop. now destruct (op (tick_attempts s)) as [[e|v] s'].
  - change (tick_attempts (set_credentials creds s))
      with (set_credentials creds (tick_attempts s)).
    rewrite Hop. destruct (op (tick_attempts s)) as [[e|v] s']; simpl; [|reflexivity].
    change (push_sleep (wait_exponential cfg k) (set_credentials creds s'))
      with (set_credentials creds (push_sleep (wait_exponential cfg k) s')).
    apply IH.
Qed.

Lemma fetch_body_credentials provider resource_id creds s :
  fetch_resource_details_body provider resource_id (set_credentials creds s) =
    (fst (fetch_resource_details_body provider resource_id s),
     set_credentials creds (snd (fetch_resource_details_body provider resource_id s))).
Proof.
  unfold fetch_resource_details_body, describe_instances.
  destruct provider; simpl; try reflexivity.
  destruct (String.prefix "i-" resource_id); simpl; [|reflexivity].
  now destruct (existsb (provider_eqb AWS) (clients s)).
Qed.

Lemma fetch_resource_details_credentials provider resource_id creds s :
  _fetch_resource_details provider resource_id (set_credentials creds s) =
    (fst (_fetch_resource_details provider resource_id s),
     set_credentials creds (snd (_fetch_resource_details provider resource_id s))).
Proof.
  unfold _fetch_resource_details, retry.
  change (tick_fetch_calls (set_credentials creds s))
    with (set_credentials creds (tick_fetch_calls s)).
  apply retry_from_credentials. intros s0. apply fetch_body_credentials.
Qed.

Lemma get_resource_details_body_credentials provider resource_id creds s :
  get_resource_details_body provider resource_id (set_credentials creds s) =
    (fst (get_resource_details_body provider resource_id s),
     set_credentials creds (snd (get_resource_details_body provider resource_id s))).
Proof.
  unfold get_resource_details_body, bind, cache_manager_get. simpl.
  destruct (dict_get _ (cache (cache_manager s))) as [[v ts]|]; simpl.
  - match goal with
    | |- context [truthy ?c] => destruct (truthy c)
    end; [reflexivity|].
    match goal with
    | |- context [_fetch_resource_details _ _ (set_cache_manager ?c (tick_reads _))] =>
        change (set_cache_manager c (tick_reads (set_credentials creds s)))
          with (set_credentials creds (set_cache_manager c (tick_reads s)));
        rewrite fetch_resource_details_credentials;
        destruct (_fetch_resource_details provider resource_id
                    (set_cache_manager c (tick_reads s))) as [[e|details] s1]
    end; simpl; [reflexivity|].
    unfold cache_manager_set. simpl.
    now destruct (set (cache_manager s1) _ details (clock (reads s1))).
  - rewrite fetch_resource_details_credentials.
    destruct (_fetch_resource_details provider resource_id s) as [[e|details] s1];
      simpl; [reflexivity|].
    unfold cache_manager_set. simpl.
    now destruct (set (cache_manager s1) _ details (clock (reads s1))).
Qed.

(** C1 (as the program has it). [get_resource_details] never reads the
    credentials: run from a state with any other credentials it returns the
    same result, makes the same calls and leaves the same state, credentials
    aside.  No validation stands between the call and the provider. *)
Theorem get_resource_details_ignores_credentials provider resource_id creds s :
  get_resource_details provider resource_id (set_credentials creds s) =
    (fst (get_resource_details provider resource_id s),
     set_credentials creds (snd (get_resource_details provider resource_id s))).
Proof.
  unfold get_resource_details. simpl lru.
  destruct (lru_find (provider, resource_id) (lru s)) as [v|]; [reflexivity|].
  rewrite get_resource_details_body_credentials.
  now destruct (get_resource_details_body provider resource_id s) as [[e|v] s'].
Qed.

(** ** Loading the module *)

(** C9. Executing the module stops with [NameError] for [self].  Everything
    before [class MultiCloudOrchestrator] is bound without error, [retry] is
    bound and [self] is not, neither as a global nor as a builtin; in the
    class body [__init__], whose code assigns [self.retry_config], is only
    defined, not run, so the decorator of either retried method finds no
    [self], whatever the class namespace holds apart from it; the class
    statement raises, and neither the class nor the retry configuration
    comes into being. *)
Theorem retry_decorator_reads_unbound_self :
  exec_module [] orchestrator_py = inl (NameError "self") /\
  exists globals,
    exec_module [] (prelude ++ [class_MetricsData; class_CloudProvider;
                                class_CacheManager])%list = inr globals /\
    bound globals "retry" = true /\
    bound (globals ++ builtins)%list "self" = false /\
    exec_body globals [] [MDef "__init__" [] []] = inr ["__init__"] /\
    (forall locals,
       bound locals "self" = false ->
       exec_member globals locals (MDef "_initialize_clients" ["retry"; "self"] []) =
         inl (NameError "self") /\
       exec_member globals locals
         (MDef "_fetch_resource_details" ["retry"; "self"]
               ["CloudProvider"; "str"; "dict"]) = inl (NameError "self")) /\
    exec_stmt globals class_MultiCloudOrchestrator = inl (NameError "self").
Proof.
  split; [reflexivity|]. eexists. split; [reflexivity|].
  split; [reflexivity|]. split; [reflexivity|]. split; [reflexivity|].
  split; [|reflexivity].
  intros locals Hself.
  assert (Hb : forall rest name, bound (locals ++ rest)%list name =
                                 bound locals name || bound rest name).
  { intros rest name. unfold bound. apply existsb_app. }
  split; unfold exec_member; simpl lookup_all.
  - rewrite !Hb, Hself. simpl. rewrite orb_true_r. reflexivity.
  - rewrite !Hb, Hself. simpl. rewrite orb_true_r. reflexivity.
Qed.

(** * Further properties of the code *)

(** ** CacheManager *)

Lemma dict_set_length {V : Type} (k : string) (v : V) (d : list (string * V)) :
  length (dict_set k v d) =
    match dict_get k d with
    | Some _ => length d
    | None => S (length d)
    end.
Proof.
  induction d as [|[k0 v0] r IH]; simpl; [reflexivity|].
  destruct (String.eqb_spec k k0); simpl; [reflexivity|].
  rewrite IH. now destruct (dict_get k r).
Qed.

Lemma get_keeps_size (self : CacheManager.t) (key : string) (now : Z) :
  max_size (snd (get self key now)) = max_size self.
Proof.
  unfold get. destruct (dict_get key (cache self)) as [[v ts]|]; [|reflexivity].
  now destruct (now - ts <? timedelta_seconds (ttl self)).
Qed.

(** X1. [get] disturbs no key but its own: the entries under other keys,
    the capacity and the time-to-live are as before, and the cache does not
    grow. *)
Theorem get_keeps_other_keys (self : CacheManager.t) (key other : string) (now : Z) :
  other <> key ->
  dict_get other (cache (snd (get self key now))) = dict_get other (cache self) /\
  (length (cache (snd (get self key now))) <= length (cache self))%nat /\
  max_size (snd (get self key now)) = max_size self /\
  ttl (snd (get self key now)) = ttl self.
Proof.
  intros Hne. unfold get.
  destruct (dict_get key (cache self)) as [[v ts]|]; [|now repeat split].
  destruct (now - ts <? timedelta_seconds (ttl self)); [now repeat split|].
  simpl. repeat split.
  - now apply dict_get_del_ne.
  - apply dict_del_length_le.
Qed.

(** X2. Asking again at the same instant changes nothing: a second [get]
    for the key returns what the first returned and leaves the cache as the
    first left it. *)
Theorem get_twice (self : CacheManager.t) (key : string) (now : Z) :
  NoDup (dict_keys (cache self)) ->
  get (snd (get self key now)) key now = get self key now.
Proof.
  intros Hnd. unfold get at 2 3.
  destruct (dict_get key (cache self)) as [[v ts]|] eqn:Hget.
  - destruct (now - ts <? timedelta_seconds (ttl self)) eqn:Hage; simpl.
    + unfold get. now rewrite Hget, Hage.
    + unfold get. simpl. now rewrite dict_get_del_eq.
  - simpl. unfold get. now rewrite Hget.
Qed.

(** X3. A [set] that finds room evicts nothing: it succeeds, the key holds
    the new value with the new timestamp, every other key keeps its entry,
    and the cache grows by one entry if the key is new and not at all if
    it is overwritten. *)
Theorem set_with_room (self : CacheManager.t) (key : string) (v : value) (now : Z) :
  Z.of_nat (length (cache self)) < max_size self ->
  exists self',
    set self key v now = inr self' /\
    dict_get key (cache self') = Some (v, now) /\
    (forall other, other <> key ->
                   dict_get other (cache self') = dict_get other (cache self)) /\
    length (cache self') =
      match dict_get key (cache self) with
      | Some _ => length (cache self)
      | None => S (length (cache self))
      end.
Proof.
  intros Hroom. unfold set.
  destruct (Z.leb_spec (max_size self) (Z.of_nat (length (cache self)))); [lia|].
  eexists. split; [reflexivity|]. simpl. split; [apply dict_get_set_eq|]. split.
  - intros other Hne. now apply dict_get_set_ne.
  - apply dict_set_length.
Qed.

(** X4. Overwriting a key of a full cache still evicts: when the key is
    present and is not the oldest one, the oldest entry is deleted all the
    same, so the cache ends up one entry short of what it held. *)
Theorem set_full_overwrite_evicts (self : CacheManager.t) (key oldest : string)
  (v : value) (now : Z) (old : value * Z) :
  NoDup (dict_keys (cache self)) ->
  max_size self <= Z.of_nat (length (cache self)) ->
  dict_get key (cache self) = Some old ->
  oldest_key (cache self) = Some oldest ->
  oldest <> key ->
  exists self',
    set self key v now = inr self' /\
    S (length (cache self')) = length (cache self) /\
    dict_get oldest (cache self') = None /\
    dict_get key (cache self') = Some (v, now).
Proof.
  intros Hnd Hfull Hkey Hold Hne. unfold set.
  destruct (Z.leb_spec (max_size self) (Z.of_nat (length (cache self)))); [|lia].
  rewrite Hold. eexists. split; [reflexivity|]. simpl.
  assert (Hne' : cache self <> []) by (intros Heq; now rewrite Heq in Hkey).
  destruct (oldest_key_spec (cache self) Hne' Hnd) as (o & e & Ho & Hget & _).
  rewrite Hold in Ho. injection Ho as <-.
  split; [|split].
  - rewrite dict_set_length, dict_get_del_ne, Hkey by congruence.
    eapply dict_del_length, Hget.
  - rewrite dict_get_set_ne by assumption. now apply dict_get_del_eq.
  - apply dict_get_set_eq.
Qed.

Lemma min_from_split best rest :
  exists before after,
    best :: rest = (before ++ min_from best rest :: after)%list /\
    Forall (fun x => timestamp (min_from best rest) < timestamp x) before /\
    Forall (fun x => timestamp (min_from best rest) <= timestamp x) after.
Proof.
  revert best. induction rest as [|x r IH]; intros best; simpl.
  - exists [], []. repeat split; constructor.
  - destruct (Z.ltb_spec (timestamp x) (timestamp best)) as [Hlt|Hge].
    + destruct (IH x) as (before & after & Heq & Hb & Ha).
      exists (best :: before), after. split; [simpl; now rewrite Heq|].
      split; [|assumption]. constructor; [|assumption].
      pose proof (min_from_le_best x r). lia.
    + destruct (IH best) as (before & after & Heq & Hb & Ha).
      destruct before as [|b before'].
      * simpl in Heq. injection Heq as Hm Hr.
        exists [], (x :: after). rewrite <- Hm. split; [simpl; now rewrite Hr|].
        split; [constructor|]. constructor; [lia|]. now rewrite Hm.
      * simpl in Heq. injection Heq as Hbest Hr. subst b.
        exists (best :: x :: before'), after.
        split; [simpl; do 2 f_equal; exact Hr|].
        split; [|assumption].
        apply Forall_cons in Hb as [Hb1 Hb2].
        constructor; [assumption|]. constructor; [lia|assumption].
Qed.

(** X5. Which entry goes when timestamps tie: the key that [set] evicts is
    that of the first entry, in insertion order, among those with the least
    timestamp - every entry before it is strictly younger, every entry
    after it is not older. *)
Theorem oldest_key_first_minimal (c : list (string * (value * Z))) (oldest : string) :
  oldest_key c = Some oldest ->
  exists before e after,
    c = (before ++ (oldest, e) :: after)%list /\
    Forall (fun x => snd e < timestamp x) before /\
    Forall (fun x => snd e <= timestamp x) after.
Proof.
  destruct c as [|x r]; [discriminate|]. simpl. intros [= <-].
  destruct (min_from_split x r) as (before & after & Heq & Hb & Ha).
  destruct (min_from x r) as [k e]. exists before, e, after. now repeat split.
Qed.

(** X6. A cache whose capacity is not positive never stores anything: it
    stays empty, and every [set] raises the [ValueError] of [min] on an
    empty sequence. *)
Theorem nonpositive_capacity_stays_empty (m l : Z) (self : CacheManager.t) :
  m <= 0 -> reachable m l self ->
  cache self = [] /\
  forall key v now,
    set self key v now = inl (ValueError "min() arg is an empty sequence").
Proof.
  intros Hm Hreach.
  assert (Hinv : cache self = [] /\ max_size self = m).
  { induction Hreach.
    - split; reflexivity.
    - destruct IHHreach as [Hc Hs]. unfold get. rewrite Hc. simpl. now split.
    - destruct IHHreach as [Hc Hs]. unfold set in H. rewrite Hc, Hs in H.
      revert H. change (Z.of_nat (length (@nil (string * (value * Z))))) with 0.
      cbv iota. destruct (Z.leb_spec m 0); [discriminate|lia]. }
  destruct Hinv as [Hc Hs]. split; [assumption|]. intros key v now.
  unfold set. rewrite Hc, Hs.
  change (Z.of_nat (length (@nil (string * (value * Z))))) with 0.
  destruct (Z.leb_spec m 0); [reflexivity|lia].
Qed.

(** X7. With a time-to-live that is not positive nothing is ever served:
    whatever is stored under the key, a [get] at or after the time of
    storing returns [None]. *)
Theorem nonpositive_ttl_serves_nothing (self : CacheManager.t) (key : string)
  (now : Z) (v : value) (ts : Z) :
  ttl self <= 0 ->
  dict_get key (cache self) = Some (v, ts) ->
  ts <= now ->
  get self key now = (VNone, with_cache self (dict_del key (cache self))).
Proof.
  intros Httl Hget Hnow. unfold get. rewrite Hget.
  unfold timedelta_seconds.
  destruct (Z.ltb_spec (now - ts) (ttl self * 1000000)); [lia|reflexivity].
Qed.

(** ** Credential validation and client initialisation *)

Lemma missing_fields_empty_record required :
  missing_fields required (∅ : gmap string string) = required.
Proof.
  unfold missing_fields. induction required as [|f r IH]; [reflexivity|].
  rewrite filter_cons_True by apply lookup_empty. now rewrite IH.
Qed.

Lemma validate_ok_missing creds provider required :
  table_get provider required_fields = Some required ->
  (_validate_provider_credentials creds provider = inr tt <->
   missing_fields required (credentials_get creds provider) = []).
Proof.
  intros Hreq. unfold _validate_provider_credentials. rewrite Hreq.
  destruct (missing_fields required (credentials_get creds provider));
    split; congruence.
Qed.

(** X8. A provider for which no credentials were configured at all fails
    validation with every one of its required fields listed, in table
    order. *)
Theorem validate_without_record
  (creds : list (CloudProvider * gmap string string)) (provider : CloudProvider)
  (required : list string) :
  table_get provider required_fields = Some required ->
  table_get provider creds = None ->
  _validate_provider_credentials creds provider =
    inl (ValueError ("Missing required fields for " +:+ provider_str provider
                     +:+ ": " +:+ join ", " required)).
Proof.
  intros Hreq Hnone. unfold _validate_provider_credentials, credentials_get.
  rewrite Hreq, Hnone, missing_fields_empty_record.
  destruct provider; injection Hreq as <-; reflexivity.
Qed.

(** X9. Fields beyond the required ones do no harm: credentials that
    validate keep validating when the record gains keys. *)
Theorem validate_accepts_more_fields
  (creds creds' : list (CloudProvider * gmap string string))
  (provider : CloudProvider) :
  dom (credentials_get creds provider) ⊆ dom (credentials_get creds' provider) ->
  _validate_provider_credentials creds provider = inr tt ->
  _validate_provider_credentials creds' provider = inr tt.
Proof.
  intros Hsub Hok.
  destruct (required_fields_total provider) as [required Hreq].
  apply (validate_ok_missing _ _ _ Hreq) in Hok.
  apply (validate_ok_missing _ _ _ Hreq).
  apply elem_of_nil_inv. intros field Hin.
  unfold missing_fields in Hin. apply list_elem_of_filter in Hin as [Hnone Hin].
  apply not_elem_of_dom in Hnone.
  assert (Hmiss : field ∈ missing_fields required (credentials_get creds provider)).
  { unfold missing_fields. apply list_elem_of_filter. split; [|assumption].
    apply not_elem_of_dom. intros Hd. apply Hnone, Hsub, Hd. }
  rewrite Hok in Hmiss. now apply elem_of_nil in Hmiss.
Qed.

(** X10. The loop of [_initialize_clients] is fail-fast: it completes
    exactly when every provider validates, and what it raises otherwise is
    the validation error of the first provider, in iteration order, that
    does not. *)
Theorem initialize_each_first_failure
  (creds : list (CloudProvider * gmap string string))
  (providers : list CloudProvider) :
  (initialize_each creds providers = inr tt <->
   Forall (fun p => _validate_provider_credentials creds p = inr tt) providers) /\
  (forall e,
     initialize_each creds providers = inl e ->
     exists good p rest,
       providers = (good ++ p :: rest)%list /\
       Forall (fun q => _validate_provider_credentials creds q = inr tt) good /\
       _validate_provider_credentials creds p = inl e).
Proof.
  induction providers as [|p r [IHok IHfail]]; simpl.
  - split; [split; [constructor|reflexivity]|discriminate].
  - destruct (_validate_provider_credentials creds p) as [e0|[]] eqn:Hp.
    + split.
      * split; [discriminate|]. intros Hall. apply Forall_cons in Hall as [Hv _].
        congruence.
      * intros e [= <-]. exists [], p, r. repeat split; [constructor|assumption].
    + split.
      * rewrite IHok. split; [now constructor|].
        intros Hall. now apply Forall_cons in Hall as [_ Hall].
      * intros e He. destruct (IHfail e He) as (good & q & rest & -> & Hgood & Hq).
        exists (p :: good), q, rest. repeat split; [now constructor|assumption].
Qed.

(** X11. [_initialize_clients] constructs no client.  When every configured
    provider validates it returns after one attempt; otherwise the very same
    validation error is met three times, with two 4-second sleeps in
    between, and comes out inside [RetryError].  Either way the clients,
    the credentials, the cache and the [lru_cache] table are as before. *)
Theorem initialize_clients_outcome (s : State) :
  let r := _initialize_clients s in
  clients (snd r) = clients s /\ credentials (snd r) = credentials s /\
  cache_manager (snd r) = cache_manager s /\ lru (snd r) = lru s /\
  api_calls (snd r) = api_calls s /\
  match initialize_each (credentials s) (map fst (credentials s)) with
  | inr _ =>
      fst r = inr tt /\ attempts (snd r) = S (attempts s) /\
      sleeps (snd r) = sleeps s
  | inl e =>
      fst r = inl (RetryError e) /\ attempts (snd r) = S (S (S (attempts s))) /\
      sleeps (snd r) = 4 :: 4 :: sleeps s
  end.
Proof.
  cbv zeta. unfold _initialize_clients, retry. simpl.
  destruct (initialize_each (credentials s) (map fst (credentials s))) as [e|[]];
    simpl; repeat split.
Qed.

(** ** Fetching *)

(** X12. Without a registered AWS client an instance lookup cannot
    succeed, yet it is retried: three attempts, two 4-second sleeps, no call
    to the provider API, and [RetryError] around the [KeyError]. *)
Theorem fetch_without_client (resource_id : string) (s : State) :
  String.prefix "i-" resource_id = true ->
  existsb (provider_eqb AWS) (clients s) = false ->
  let r := _fetch_resource_details AWS resource_id s in
  fst r = inl (RetryError (KeyError "CloudProvider.AWS")) /\
  attempts (snd r) = S (S (S (attempts s))) /\
  sleeps (snd r) = 4 :: 4 :: sleeps s /\
  api_calls (snd r) = api_calls s /\
  fetch_calls (snd r) = S (fetch_calls s).
Proof.
  intros Hprefix Hclient. cbv zeta.
  unfold _fetch_resource_details, retry, fetch_resource_details_body,
    describe_instances.
  simpl. rewrite Hprefix. simpl. repeat (rewrite Hclient; simpl). repeat split.
Qed.

(** X13. An AWS resource that is not an instance has no fetch logic, and
    that too is retried: the [NotImplementedError] is raised three times,
    with two 4-second sleeps, before the call fails. *)
Theorem unimplemented_aws_retried (resource_id : string) (s : State) :
  String.prefix "i-" resource_id = false ->
  let r := _fetch_resource_details AWS resource_id s in
  fst r = inl (RetryError (NotImplementedError
                             "Fetch logic for CloudProvider.AWS is not implemented.")) /\
  attempts (snd r) = S (S (S (attempts s))) /\
  sleeps (snd r) = 4 :: 4 :: sleeps s /\
  api_calls (snd r) = api_calls s.
Proof.
  intros Hprefix. cbv zeta.
  unfold _fetch_resource_details, retry, fetch_resource_details_body.
  simpl. rewrite Hprefix. simpl. repeat split.
Qed.

(** X14. With an AWS client, an instance fetch returns the first answer
    among up to three calls of the provider API and stops calling there;
    each failed call but the third is followed by a 4-second sleep; three
    failed calls end in [RetryError] around the third failure. *)
Theorem fetch_returns_first_answer (resource_id : string) (s : State) :
  String.prefix "i-" resource_id = true ->
  existsb (provider_eqb AWS) (clients s) = true ->
  let r := _fetch_resource_details AWS resource_id s in
  let n := api_calls s in
  match ec2 n resource_id with
  | inr v => fst r = inr v /\ api_calls (snd r) = S n /\ sleeps (snd r) = sleeps s
  | inl _ =>
      match ec2 (S n) resource_id with
      | inr v =>
          fst r = inr v /\ api_calls (snd r) = S (S n) /\
          sleeps (snd r) = 4 :: sleeps s
      | inl _ =>
          match ec2 (S (S n)) resource_id with
          | inr v =>
              fst r = inr v /\ api_calls (snd r) = S (S (S n)) /\
              sleeps (snd r) = 4 :: 4 :: sleeps s
          | inl e =>
              fst r = inl (RetryError e) /\ api_calls (snd r) = S (S (S n)) /\
              sleeps (snd r) = 4 :: 4 :: sleeps s
          end
      end
  end.
Proof.
  intros Hprefix Hclient. cbv zeta.
  unfold _fetch_resource_details, retry, fetch_resource_details_body,
    describe_instances.
  simpl. rewrite Hprefix. simpl. rewrite Hclient. simpl.
  destruct (ec2 (api_calls s) resource_id) as [e1|v1]; simpl; [|repeat split].
  rewrite Hclient. simpl.
  destruct (ec2 (S (api_calls s)) resource_id) as [e2|v2]; simpl; [|repeat split].
  rewrite Hclient. simpl.
  destruct (ec2 (S (S (api_calls s))) resource_id) as [e3|v3]; simpl; repeat split.
Qed.

(** ** Looking up a resource *)

(** X15. Cache keys do not collide: two lookups share a key only when they
    name the same provider and the same resource. *)
Theorem cache_key_injective (provider provider' : CloudProvider)
  (resource_id resource_id' : string) :
  cache_key provider resource_id = cache_key provider' resource_id' ->
  provider = provider' /\ resource_id = resource_id'.
Proof.
  unfold cache_key.
  destruct provider, provider'; intros H; try discriminate;
    (split; [reflexivity|]); cbv in H; congruence.
Qed.

(** X16. The body of [get_resource_details] populates the cache: once it
    has returned a truthy value, that value is stored under the key, and as
    long as the entry is younger than the time-to-live the body returns it
    again after reading the clock and nothing else - no fetch, no call to
    the provider. *)
Theorem cached_value_served_within_ttl provider resource_id s v s1 :
  get_resource_details_body provider resource_id s = (inr v, s1) ->
  truthy v = true ->
  exists ts,
    dict_get (cache_key provider resource_id) (cache (cache_manager s1)) =
      Some (v, ts) /\
    (clock (reads s1) - ts < timedelta_seconds (ttl (cache_manager s1)) ->
     get_resource_details_body provider resource_id s1 = (inr v, tick_reads s1)).
Proof.
  intros Hbody Htruthy.
  assert (Hstored : exists ts,
             dict_get (cache_key provider resource_id) (cache (cache_manager s1)) =
               Some (v, ts)).
  { destruct (get_resource_details_body_cases provider resource_id s)
      as (s0 & _ & Hcm & _ & _ & _ & Hcases).
    destruct (truthy (fst (get (cache_manager s) (cache_key provider resource_id)
                             (clock (reads s))))) eqn:Hhit.
    - rewrite Hcases in Hbody. injection Hbody as Hv <-. rewrite Hcm.
      revert Hv Hhit. unfold get.
      destruct (dict_get (cache_key provider resource_id) (cache (cache_manager s)))
        as [[w ts]|] eqn:Hd; [|discriminate].
      destruct (_ <? _); simpl; [|discriminate].
      intros -> _. exists ts. exact Hd.
    - destruct (_fetch_resource_details provider resource_id s0)
        as [[e|details] s1'] eqn:Hfetch; [congruence|].
      unfold cache_manager_set in Hcases.
      destruct (set (cache_manager s1') (cache_key provider resource_id) details
                  (clock (reads s1'))) as [e|c] eqn:Hset; [congruence|].
      rewrite Hcases in Hbody. injection Hbody as <- <-. simpl.
      apply set_stores in Hset as (Hget & _). eauto. }
  destruct Hstored as [ts Hstored]. exists ts. split; [assumption|].
  intros Hyoung.
  unfold get_resource_details_body, bind, cache_manager_get, get.
  rewrite Hstored.
  destruct (Z.ltb_spec (clock (reads s1) - ts)
              (timedelta_seconds (ttl (cache_manager s1)))); [|lia].
  simpl. rewrite Htruthy. unfold ret. now destruct s1.
Qed.

(** X17. A failed call is not remembered: when [get_resource_details]
    raises, its arguments were not in the [lru_cache] table and are not put
    there, so the next call runs the body again; and with a positive cache
    capacity what it raises is the [RetryError] of the fetch. *)
Theorem failed_call_not_memoized provider resource_id s e s' :
  get_resource_details provider resource_id s = (inl e, s') ->
  lru s' = lru s /\
  lru_find (provider, resource_id) (lru s') = None /\
  (0 < max_size (cache_manager s) -> exists last, e = RetryError last).
Proof.
  unfold get_resource_details.
  destruct (lru_find (provider, resource_id) (lru s)) as [w|] eqn:Hfind;
    [discriminate|].
  pose proof (get_resource_details_body_lru provider resource_id s) as Hlru.
  destruct (get_resource_details_body_cases provider resource_id s)
    as (s0 & _ & Hcm & _ & _ & _ & Hcases).
  destruct (get_resource_details_body provider resource_id s)
    as [[e0|w] s0'] eqn:Hbody; [|discriminate].
  intros [= <- <-]. simpl in Hlru. rewrite Hlru.
  split; [reflexivity|]. split; [assumption|]. intros Hpos.
  destruct (truthy _); [discriminate|].
  pose proof (fetch_resource_details_preserves cache_manager provider resource_id
                ltac:(reflexivity) ltac:(reflexivity) ltac:(reflexivity)
                ltac:(reflexivity) s0) as Hf.
  destruct (_fetch_resource_details provider resource_id s0)
    as [[e1|details] s1] eqn:Hfetch.
  - injection Hcases as <- _. unfold _fetch_resource_details, retry in Hfetch.
    eapply retry_from_failure, Hfetch.
  - simpl in Hf. unfold cache_manager_set in Hcases.
    destruct (set (cache_manager s1) (cache_key provider resource_id) details
                (clock (reads s1))) as [e1|c] eqn:Hset; [|discriminate].
    apply set_raises in Hset as [_ Hle]. exfalso.
    rewrite Hf, Hcm in Hle.
    pose proof (get_keeps_size (cache_manager s) (cache_key provider resource_id)
                  (clock (reads s))) as Hsize.
    lia.
Qed.

Lemma lru_remove_length a v l :
  lru_find a l = Some v -> S (length (lru_remove a l)) = length l.
Proof.
  induction l as [|[b w] r IH]; simpl; [discriminate|].
  destruct (args_eqb a b); [reflexivity|].
  intros H. simpl. now rewrite IH.
Qed.

Lemma removelast_length {A : Type} (l : list A) :
  length (removelast l) = (length l - 1)%nat.
Proof.
  induction l as [|x [|y r] IH]; simpl in *; try reflexivity.
  rewrite IH. lia.
Qed.

Lemma get_resource_details_body_inv m l provider resource_id s :
  inv m l (cache_manager s) ->
  inv m l (cache_manager (snd (get_resource_details_body provider resource_id s))).
Proof.
  intros Hinv.
  destruct (get_resource_details_body_cases provider resource_id s)
    as (s0 & _ & Hcm & _ & _ & _ & Hcases).
  assert (Hinv0 : inv m l (cache_manager s0))
    by (rewrite Hcm; now apply get_inv).
  destruct (truthy _); [now rewrite Hcases|].
  pose proof (fetch_resource_details_preserves cache_manager provider resource_id
                ltac:(reflexivity) ltac:(reflexivity) ltac:(reflexivity)
                ltac:(reflexivity) s0) as Hf.
  destruct (_fetch_resource_details provider resource_id s0) as [[e|details] s1];
    simpl in Hf; [rewrite Hcases; simpl; now rewrite Hf|].
  unfold cache_manager_set in Hcases.
  destruct (set (cache_manager s1) (cache_key provider resource_id) details
              (clock (reads s1))) as [e|c] eqn:Hset;
    rewrite Hcases; simpl.
  - now rewrite Hf.
  - eapply set_inv; [|exact Hset]. now rewrite Hf.
Qed.

Lemma get_resource_details_bounds m l provider resource_id s :
  (length (lru s) <= lru_maxsize)%nat -> inv m l (cache_manager s) ->
  (length (lru (snd (get_resource_details provider resource_id s))) <= lru_maxsize)%nat /\
  inv m l (cache_manager (snd (get_resource_details provider resource_id s))).
Proof.
  intros Hlru Hinv. unfold get_resource_details.
  destruct (lru_find (provider, resource_id) (lru s)) as [w|] eqn:Hfind.
  - simpl. split; [|assumption].
    apply lru_remove_length in Hfind. lia.
  - pose proof (get_resource_details_body_lru provider resource_id s) as Hl.
    pose proof (get_resource_details_body_inv m l provider resource_id s Hinv) as Hi.
    destruct (get_resource_details_body provider resource_id s) as [[e|w] s'];
      simpl in *; [split; [now rewrite Hl|assumption]|].
    split; [|assumption]. rewrite Hl. unfold lru_store. rewrite Hfind.
    destruct (Nat.leb_spec lru_maxsize (length (lru s))); simpl.
    + rewrite removelast_length. unfold lru_maxsize in *. lia.
    + lia.
Qed.

(** X18. Both tables stay bounded through any run of lookups: if the
    [lru_cache] table holds at most 128 entries and the cache is within its
    capacity, with unique keys, then so it is after any sequence of
    [get_resource_details] calls, whatever they return or raise. *)
Theorem tables_stay_bounded (m l : Z) (calls : list (CloudProvider * string))
  (s : State) :
  (length (lru s) <= 128)%nat -> inv m l (cache_manager s) ->
  (length (lru (call_all calls s)) <= 128)%nat /\
  Z.of_nat (length (cache (cache_manager (call_all calls s)))) <= m /\
  NoDup (dict_keys (cache (cache_manager (call_all calls s)))).
Proof.
  revert s. induction calls as [|[p r] rest IH]; intros s Hlru Hinv; simpl.
  - split; [assumption|]. destruct Hinv as (_ & _ & Hnd & Hlen). now split.
  - destruct (get_resource_details_bounds m l p r s Hlru Hinv) as [Hlru' Hinv'].
    now apply IH.
Qed.

(** ** Does the resource exist? *)

Lemma fetch_elsewhere provider resource_id s :
  provider_eqb provider AWS = false ->
  _fetch_resource_details provider resource_id s =
    (inr VNone, tick_attempts (tick_fetch_calls s)).
Proof. intros Hp. destruct provider; try discriminate; reflexivity. Qed.

(** X19. For Azure, GCP, Oracle and IBM every resource "exists": on an
    orchestrator whose cache has a positive capacity
    [_validate_resource_exists] answers [True] for any resource id, in any
    state, without a single call to a provider. *)
Theorem any_resource_exists_elsewhere provider resource_id s :
  provider_eqb provider AWS = false ->
  0 < max_size (cache_manager s) ->
  fst (_validate_resource_exists provider resource_id s) = inr true /\
  api_calls (snd (_validate_resource_exists provider resource_id s)) = api_calls s.
Proof.
  intros Hp Hpos. unfold _validate_resource_exists, get_resource_details.
  destruct (lru_find (provider, resource_id) (lru s)) as [w|] eqn:Hfind;
    [split; reflexivity|].
  destruct (get_resource_details_body_cases provider resource_id s)
    as (s0 & _ & Hcm & _ & _ & Hapi & Hcases).
  destruct (truthy _); [rewrite Hcases; split; [reflexivity|exact Hapi]|].
  rewrite (fetch_elsewhere provider resource_id s0 Hp) in Hcases.
  unfold cache_manager_set in Hcases.
  destruct (set (cache_manager (tick_attempts (tick_fetch_calls s0)))
              (cache_key provider resource_id) VNone
              (clock (reads (tick_attempts (tick_fetch_calls s0)))))
    as [e|c] eqn:Hset.
  - apply set_raises in Hset as [_ Hle]. exfalso. simpl in Hle. rewrite Hcm in Hle.
    rewrite get_keeps_size in Hle. lia.
  - rewrite Hcases. split; [reflexivity|]. simpl. exact Hapi.
Qed.

(** X20. An AWS instance that is neither remembered nor cached does not
    "exist" while no AWS client is registered: [_validate_resource_exists]
    swallows the failed fetch and answers [False], after the three attempts
    and two sleeps of the retry, and stores nothing. *)
Theorem aws_instance_missing_without_client resource_id s :
  String.prefix "i-" resource_id = true ->
  existsb (provider_eqb AWS) (clients s) = false ->
  lru_find (AWS, resource_id) (lru s) = None ->
  dict_get (cache_key AWS resource_id) (cache (cache_manager s)) = None ->
  let r := _validate_resource_exists AWS resource_id s in
  fst r = inr false /\
  attempts (snd r) = S (S (S (attempts s))) /\
  sleeps (snd r) = 4 :: 4 :: sleeps s /\
  api_calls (snd r) = api_calls s /\
  cache_manager (snd r) = cache_manager s /\ lru (snd r) = lru s.
Proof.
  intros Hprefix Hclient Hfind Habsent. cbv zeta.
  unfold _validate_resource_exists, get_resource_details. rewrite Hfind.
  unfold get_resource_details_body, bind, cache_manager_get. rewrite Habsent.
  change (truthy VNone) with false. cbv beta iota.
  unfold _fetch_resource_details, retry, fetch_resource_details_body,
    describe_instances.
  simpl. rewrite Hprefix. simpl. repeat (rewrite Hclient; simpl).
  repeat split.
Qed.

(** ** Metrics and the dashboard *)



Lemma monitor_rows_only_validates {float : Type} (percent_1f : float -> string)
  (psutil : nat -> exn + (float * float * float)) (now : nat -> Z)
  creds providers rows (st : MetricsState float) :
  monitor_rows percent_1f psutil now creds providers rows st =
    match initialize_each creds providers with
    | inl e => (inl e, st)
    | inr _ => (inr rows, st)
    end.
Proof.
  induction providers as [|p r IH]; simpl; [reflexivity|].
  destruct (_validate_provider_credentials creds p) as [e|u]; [reflexivity|].
  unfold returned. simpl. apply IH.
Qed.

Lemma monitor_loop_refreshing {float : Type} (percent_1f : float -> string)
  (psutil : nat -> exn + (float * float * float)) (now : nat -> Z)
  fuel creds providers (st : MetricsState float) :
  initialize_each creds providers = inr tt ->
  monitor_loop percent_1f psutil now fuel creds providers true st =
    (repeat (PrintTable []) fuel, false, st).
Proof.
  intros Hok. induction fuel as [|f IH]; simpl; [reflexivity|].
  rewrite monitor_rows_only_validates, Hok, IH. reflexivity.
Qed.

(** X22. The dashboard never shows a row and never samples a metric.  The
    value it tests, the result of [_validate_provider_credentials], is
    [None] whenever validation passes, so each pass prints the table with no
    rows; a monitored provider whose credentials do not validate makes the
    command print that error and return.  Without [--refresh] the command
    returns after its one pass; with it, and valid credentials, it prints
    empty tables for as long as it is followed. *)
Theorem monitor_never_shows_a_row {float : Type} (percent_1f : float -> string)
  (psutil : nat -> exn + (float * float * float)) (now : nat -> Z)
  (fuel : nat) (creds : list (CloudProvider * gmap string string))
  (provider : option CloudProvider) (refresh : bool) (st : MetricsState float) :
  monitor percent_1f psutil now (S fuel) creds provider refresh st =
    match initialize_each creds
            (match provider with Some p => [p] | None => all_providers end) with
    | inl e => ([PrintError e], true, st)
    | inr _ =>
        if refresh
        then (repeat (PrintTable []) (S fuel), false, st)
        else ([PrintTable []], true, st)
    end.
Proof.
  unfold monitor. cbv zeta.
  set (providers := match provider with Some p => [p] | None => all_providers end).
  destruct (initialize_each creds providers) as [e|[]] eqn:Hinit.
  - simpl. now rewrite monitor_rows_only_validates, Hinit.
  - destruct refresh.
    + now apply monitor_loop_refreshing.
    + simpl. now rewrite monitor_rows_only_validates, Hinit.
Qed.

End Orchestrator.

Import CacheManager.

(** * The theorems at sample inputs *)

Lemma cache_two_reachable : reachable 2 300 cache_two.
Proof.
  apply (reach_set 2 300
           (CacheManager.mk [("a", (instance_details, 5))] 2 300)
           "b" other_details 3); [|reflexivity].
  apply (reach_set 2 300 (init 2 300) "a" instance_details 5); [|reflexivity].
  apply reach_init.
Qed.

(** C2 at a full cache of capacity 2: storing ["c"] evicts ["b"], the older
    of the two entries, and the cache still holds two. *)
Lemma set_bounded_oldest_evicted_witness :
  0 < 2 /\
  set cache_two "c" VNone 9 =
    inr (CacheManager.mk [("a", (instance_details, 5)); ("c", (VNone, 9))] 2 300).
Proof.
  split; [lia|].
  destruct (set_bounded_oldest_evicted 2 300 cache_two ltac:(lia) cache_two_reachable)
    as [_ Hset].
  destruct (Hset "c" VNone 9) as [_ Hfull].
  destruct (Hfull ltac:(simpl; lia)) as (oldest & e & Hold & _ & _ & _ & _ & _ & ->).
  vm_compute in Hold. injection Hold as <-. reflexivity.
Defined.

(** C3 at the same cache, whose [ttl] is 300 seconds: the entry stored at
    microsecond 5 is returned one second later and gone 300 seconds later. *)
Lemma get_respects_ttl_witness :
  get cache_two "a" 1000005 = (instance_details, cache_two) /\
  get cache_two "a" 300000005 =
    (VNone, CacheManager.mk [("b", (other_details, 3))] 2 300).
Proof.
  split.
  - apply (proj1 (get_respects_ttl cache_two "a" 1000005) instance_details 5);
      [reflexivity|vm_compute; reflexivity].
  - apply (proj1 (proj2 (get_respects_ttl cache_two "a" 300000005))
             instance_details 5); [reflexivity|vm_compute; discriminate].
Defined.

(** C7 at AWS: a record without [region] fails and names it; a record with
    the three keys passes although every value is blank. *)
Lemma validate_reports_missing_fields_witness :
  _validate_provider_credentials [(AWS, aws_without_region)] AWS =
    inl (ValueError "Missing required fields for CloudProvider.AWS: region") /\
  _validate_provider_credentials [(AWS, aws_blank)] AWS = inr tt.
Proof.
  split.
  - destruct (validate_reports_missing_fields [(AWS, aws_without_region)] AWS)
      as (required & Hreq & _ & _ & Hfail & _).
    injection Hreq as <-. rewrite Hfail; [reflexivity|].
    vm_compute. discriminate.
  - destruct (validate_reports_missing_fields [(AWS, aws_blank)] AWS)
      as (required & Hreq & _ & Hok & _).
    injection Hreq as <-. apply Hok. vm_compute. reflexivity.
Defined.

(** C1 as stated fails: with AWS credentials that lack [region], which
    validation rejects, [get_resource_details] still calls the provider and
    returns what it answers. *)
Lemma get_resource_details_skips_validation :
  _validate_provider_credentials (credentials orch_missing_region) AWS =
    inl (ValueError "Missing required fields for CloudProvider.AWS: region") /\
  fst (get_resource_details (clock_from 0) ec2_up AWS "i-0123" orch_missing_region) =
    inr instance_details /\
  api_calls (snd (get_resource_details (clock_from 0) ec2_up AWS "i-0123"
                    orch_missing_region)) = 1%nat.
Proof. vm_compute. repeat split. Qed.

(** C4 as stated fails: when all three attempts fail, the caller does not
    get the third failure itself but a [RetryError] holding it. *)
Lemma exhausted_retry_wraps_failure :
  let op := describe_instances ec2_down AWS "i-0123" in
  let r := retry the_retry_config op orch_missing_region in
  attempts (snd r) = 3%nat /\
  ec2_down 2 "i-0123" = inl (ClientError "timeout 3") /\
  fst r = inl (RetryError (ClientError "timeout 3")) /\
  fst r <> inl (ClientError "timeout 3").
Proof. vm_compute. repeat split. discriminate. Qed.

Lemma describe_instances_frame ec2 provider resource_id s0 :
  attempts (snd (describe_instances ec2 provider resource_id s0)) = attempts s0 /\
  sleeps (snd (describe_instances ec2 provider resource_id s0)) = sleeps s0.
Proof.
  unfold describe_instances.
  destruct (existsb (provider_eqb provider) (clients s0)); split; reflexivity.
Qed.

(** C4 at a provider that always fails: three attempts, two sleeps of 4
    seconds, [RetryError] around the third failure. *)
Lemma retry_three_attempts_witness :
  let r := retry the_retry_config (describe_instances ec2_down AWS "i-0123")
             orch_missing_region in
  (attempts (snd r) - attempts orch_missing_region)%nat = 3%nat /\
  sleeps (snd r) = [4; 4] /\
  fst r = inl (RetryError (ClientError "timeout 3")).
Proof.
  cbv zeta.
  pose proof (retry_three_attempts (describe_instances ec2_down AWS "i-0123")
                orch_missing_region
                (describe_instances_frame ec2_down AWS "i-0123")) as H.
  cbv zeta in H.
  remember (retry the_retry_config (describe_instances ec2_down AWS "i-0123")
              orch_missing_region) as r eqn:Hr.
  destruct H as (_ & _ & _ & Hcases).
  vm_compute in Hcases. destruct Hcases as [-> _].
  vm_compute. repeat split.
Defined.

(** C5 at Azure: the first lookup of a resource returns [None] and stores
    it. *)
Lemma unimplemented_fetch_returns_none_witness :
  fst (get_resource_details (clock_from 0) ec2_up AZURE "vm-1" new_orchestrator) =
    inr VNone /\
  cache_manager (snd (get_resource_details (clock_from 0) ec2_up AZURE "vm-1"
                        new_orchestrator)) =
    cache_manager orch_none_cached.
Proof.
  split.
  - apply (proj2 (proj2 (unimplemented_fetch_returns_none
                           (clock_from 0) ec2_up "vm-1" new_orchestrator)));
      [reflexivity|reflexivity|reflexivity|simpl; lia].
  - vm_compute. reflexivity.
Defined.

(** C6 at the AWS instance: the second call returns the first call's value
    and the provider API has been called once in all. *)
Lemma repeated_call_fetches_once_witness :
  let first := get_resource_details (clock_from 0) ec2_up AWS "i-0123"
                 orch_missing_region in
  fst first = inr instance_details /\
  exists s2,
    get_resource_details (clock_from 0) ec2_up AWS "i-0123" (snd first) =
      (inr instance_details, s2) /\
    fetch_calls s2 = 1%nat /\ api_calls s2 = 1%nat.
Proof.
  cbv zeta. split; [vm_compute; reflexivity|].
  destruct (repeated_call_fetches_once (clock_from 0) ec2_up AWS "i-0123"
              orch_missing_region instance_details
              (snd (get_resource_details (clock_from 0) ec2_up AWS "i-0123"
                      orch_missing_region)))
    as (s2 & Hsecond & _ & Hfetch & Hapi & _); [vm_compute; reflexivity|].
  exists s2. split; [exact Hsecond|]. split.
  - rewrite Hfetch. vm_compute. reflexivity.
  - rewrite Hapi. vm_compute. reflexivity.
Defined.

(** The lazy purge in a failing call.  A new orchestrator with an AWS client
    looks up an Azure resource, the AWS instance (fetched and cached at
    second 3), and 128 other resources, which push the instance out of the
    [lru_cache] table.  The instance is then looked up again, at second 390,
    with the provider down: the call fails, and the entry, expired by then,
    has been removed by the lookup. *)
Lemma failed_fetch_changes_cache :
  let s := call_all slow_clock ec2_up_once
             ((AZURE, "vm-1") :: (AWS, "i-0123") :: fillers 128) orch_with_client in
  let r := get_resource_details slow_clock ec2_up_once AWS "i-0123" s in
  dict_get "CloudProvider.AWS:i-0123" (cache (cache_manager s)) =
    Some (instance_details, 3000000) /\
  fst r = inl (RetryError (ClientError "unreachable")) /\
  dict_get "CloudProvider.AWS:i-0123" (cache (cache_manager (snd r))) = None /\
  cache_manager (snd r) <> cache_manager s.
Proof.
  cbv zeta.
  set (s := call_all slow_clock ec2_up_once
              ((AZURE, "vm-1") :: (AWS, "i-0123") :: fillers 128) orch_with_client).
  set (r := get_resource_details slow_clock ec2_up_once AWS "i-0123" s).
  assert (Hbefore : dict_get "CloudProvider.AWS:i-0123" (cache (cache_manager s)) =
                      Some (instance_details, 3000000))
    by (vm_compute; reflexivity).
  assert (Hfail : fst r = inl (RetryError (ClientError "unreachable")))
    by (vm_compute; reflexivity).
  assert (Hafter : dict_get "CloudProvider.AWS:i-0123"
                     (cache (cache_manager (snd r))) = None)
    by (vm_compute; reflexivity).
  clearbody r. clearbody s.
  split; [exact Hbefore|]. split; [exact Hfail|]. split; [exact Hafter|].
  intros Heq. rewrite Heq in Hafter. congruence.
Qed.

(** C8 at an expired entry and a provider that is down. *)
Lemma failed_fetch_stores_nothing_witness :
  let s0 := snd (cache_manager_get (clock_from 400000000)
                   "CloudProvider.AWS:i-0123" orch_stale_entry) in
  let r := _fetch_resource_details ec2_down AWS "i-0123" s0 in
  get_resource_details (clock_from 400000000) ec2_down AWS "i-0123"
    orch_stale_entry = (inl (RetryError (ClientError "timeout 3")), snd r) /\
  lru (snd r) = [] /\
  cache (cache_manager (snd r)) = [].
Proof.
  cbv zeta.
  destruct (failed_fetch_stores_nothing (clock_from 400000000) ec2_down
              AWS "i-0123" orch_stale_entry VNone
              (snd (cache_manager_get (clock_from 400000000)
                      "CloudProvider.AWS:i-0123" orch_stale_entry))
              (RetryError (ClientError "timeout 3"))
              (snd (_fetch_resource_details ec2_down AWS "i-0123"
                      (snd (cache_manager_get (clock_from 400000000)
                              "CloudProvider.AWS:i-0123" orch_stale_entry)))))
    as (Hcall & _ & _ & Hlru & _ & _ & Hold);
    [reflexivity|vm_compute; reflexivity|reflexivity|vm_compute; reflexivity|].
  split; [exact Hcall|]. split; [rewrite Hlru; reflexivity|].
  rewrite (Hold instance_details 0); [reflexivity|reflexivity|vm_compute; discriminate].
Defined.

(** C9: the module does not load. *)
Lemma retry_decorator_reads_unbound_self_witness :
  exec_module [] orchestrator_py = inl (NameError "self") /\
  exec_member [] ["__init__"] (MDef "_initialize_clients" ["retry"; "self"] []) <>
    inr ["_initialize_clients"; "__init__"].
Proof.
  split; [exact (proj1 retry_decorator_reads_unbound_self)|].
  vm_compute. discriminate.
Defined.

(** C10 after a run of the program: an orchestrator with an AWS client
    looks up an Azure resource, which stores [None] at second 0, and an AWS
    instance for which the provider answers an empty dict, stored at second
    1, then 128 other resources, which push both out of the [lru_cache]
    table.  At second 130 both entries are still young; the lookup returns
    the stored falsy value and each call fetches again. *)
Lemma falsy_cached_value_refetched_witness :
  let s := call_all (clock_from 0) ec2_empty
             ((AZURE, "vm-1") :: (AWS, "i-0123") :: fillers 128) orch_with_client in
  (dict_get "CloudProvider.AZURE:vm-1" (cache (cache_manager s)) = Some (VNone, 0) /\
   fst (CacheManager.get (cache_manager s) "CloudProvider.AZURE:vm-1"
          (clock_from 0 (reads s))) = VNone /\
   fetch_calls (snd (get_resource_details (clock_from 0) ec2_empty AZURE "vm-1" s)) =
     S (fetch_calls s)) /\
  (dict_get "CloudProvider.AWS:i-0123" (cache (cache_manager s)) =
     Some (VDict [], 1000000) /\
   fst (CacheManager.get (cache_manager s) "CloudProvider.AWS:i-0123"
          (clock_from 0 (reads s))) = VDict [] /\
   fetch_calls (snd (get_resource_details (clock_from 0) ec2_empty AWS "i-0123" s)) =
     S (fetch_calls s)).
Proof.
  cbv zeta.
  set (s := call_all (clock_from 0) ec2_empty
              ((AZURE, "vm-1") :: (AWS, "i-0123") :: fillers 128) orch_with_client).
  assert (Hnone : dict_get (cache_key AZURE "vm-1") (cache (cache_manager s)) =
                    Some (VNone, 0))
    by (vm_compute; reflexivity).
  assert (Hempty : dict_get (cache_key AWS "i-0123") (cache (cache_manager s)) =
                     Some (VDict [], 1000000))
    by (vm_compute; reflexivity).
  assert (Hmiss1 : lru_find (AZURE, "vm-1") (lru s) = None)
    by (vm_compute; reflexivity).
  assert (Hmiss2 : lru_find (AWS, "i-0123") (lru s) = None)
    by (vm_compute; reflexivity).
  assert (Hyoung1 : clock_from 0 (reads s) - 0 <
                    timedelta_seconds (ttl (cache_manager s)))
    by (vm_compute; reflexivity).
  assert (Hyoung2 : clock_from 0 (reads s) - 1000000 <
                    timedelta_seconds (ttl (cache_manager s)))
    by (vm_compute; reflexivity).
  clearbody s.
  destruct (falsy_cached_value_refetched (clock_from 0) ec2_empty AZURE "vm-1"
              s VNone 0 Hnone eq_refl)
    as (_ & Hlook1 & _ & Hfetch1 & _).
  destruct (falsy_cached_value_refetched (clock_from 0) ec2_empty AWS "i-0123"
              s (VDict []) 1000000 Hempty eq_refl)
    as (_ & Hlook2 & _ & Hfetch2 & _).
  split.
  - split; [exact Hnone|]. split; [exact (Hlook1 Hyoung1)|exact (Hfetch1 Hmiss1)].
  - split; [exact Hempty|]. split; [exact (Hlook2 Hyoung2)|exact (Hfetch2 Hmiss2)].
Defined.

(** C10 as stated fails.  The first lookup of an Azure resource stores
    [None], a falsy value, under the key; the same lookup repeated returns
    that [None] from the [lru_cache] table and does not fetch again. *)
Lemma falsy_value_served_from_lru :
  let s1 := snd (get_resource_details (clock_from 0) ec2_up AZURE "vm-1"
                   new_orchestrator) in
  let r := get_resource_details (clock_from 0) ec2_up AZURE "vm-1" s1 in
  dict_get "CloudProvider.AZURE:vm-1" (cache (cache_manager s1)) = Some (VNone, 0) /\
  truthy VNone = false /\
  fst r = inr VNone /\
  fetch_calls s1 = 1%nat /\ fetch_calls (snd r) = 1%nat.
Proof. vm_compute. repeat split. Qed.

(** C6 as stated fails.  With a provider that is throttled once, both calls
    return the instance, yet the provider API has been called twice.  With
    a provider that is down, the first call raises, nothing is remembered,
    and the second call enters the fetch again. *)
Lemma repeated_call_calls_provider_twice :
  let first := get_resource_details (clock_from 0) ec2_throttled_once AWS "i-0123"
                 orch_with_client in
  let second := get_resource_details (clock_from 0) ec2_throttled_once AWS "i-0123"
                  (snd first) in
  let failed := get_resource_details (clock_from 0) ec2_down AWS "i-0123"
                  orch_with_client in
  let again := get_resource_details (clock_from 0) ec2_down AWS "i-0123"
                 (snd failed) in
  (fst first = inr instance_details /\ fst second = inr instance_details /\
   api_calls (snd second) = 2%nat) /\
  (fst failed = inl (RetryError (ClientError "timeout 3")) /\
   fst again = inl (RetryError (ClientError "timeout 3")) /\
   fetch_calls (snd again) = 2%nat).
Proof. vm_compute. repeat split. Qed.

(** * The further properties at sample inputs *)

Lemma cache_two_NoDup : NoDup (dict_keys (cache cache_two)).
Proof. apply (bool_decide_unpack _). vm_compute. exact I. Qed.

(** X1: expiring ["a"] leaves ["b"] where it was. *)
Lemma get_keeps_other_keys_witness :
  dict_get "b" (cache (snd (get cache_two "a" 300000005))) = Some (other_details, 3).
Proof.
  rewrite (proj1 (get_keeps_other_keys cache_two "a" "b" 300000005
                    ltac:(discriminate))).
  reflexivity.
Defined.

(** X2: a second [get] of the expired ["a"] finds nothing and changes
    nothing. *)
Lemma get_twice_witness :
  get (snd (get cache_two "a" 300000005)) "a" 300000005 =
    (VNone, CacheManager.mk [("b", (other_details, 3))] 2 300).
Proof.
  rewrite (get_twice cache_two "a" 300000005 cache_two_NoDup). reflexivity.
Defined.

(** X3: the first [set] on a new cache. *)
Lemma set_with_room_witness :
  exists self',
    set (init 1000 300) "k" instance_details 7 = inr self' /\
    dict_get "k" (cache self') = Some (instance_details, 7) /\
    length (cache self') = 1%nat.
Proof.
  destruct (set_with_room (init 1000 300) "k" instance_details 7
              ltac:(simpl; lia))
    as (self' & Hset & Hget & _ & Hlen).
  exists self'. repeat split; assumption.
Defined.

(** X4: overwriting ["a"] in the full cache of two drops ["b"]. *)
Lemma set_full_overwrite_evicts_witness :
  exists self',
    set cache_two "a" VNone 9 = inr self' /\
    length (cache self') = 1%nat /\
    dict_get "b" (cache self') = None.
Proof.
  destruct (set_full_overwrite_evicts cache_two "a" "b" VNone 9 (instance_details, 5)
              cache_two_NoDup ltac:(simpl; lia) eq_refl eq_refl
              ltac:(discriminate))
    as (self' & Hset & Hlen & Hgone & _).
  exists self'. split; [assumption|]. split; [|assumption].
  simpl in Hlen. lia.
Defined.

(** X5: of the two entries stamped 3, the earlier one, ["y"], goes. *)
Lemma oldest_key_first_minimal_witness :
  exists before e after,
    cache_tied = (before ++ ("y", e) :: after)%list /\
    Forall (fun x => snd e < timestamp x) before /\
    Forall (fun x => snd e <= timestamp x) after.
Proof. exact (oldest_key_first_minimal cache_tied "y" eq_refl). Defined.

(** X6: a cache of capacity 0. *)
Lemma nonpositive_capacity_stays_empty_witness :
  set (init 0 300) "k" instance_details 1 =
    inl (ValueError "min() arg is an empty sequence").
Proof.
  apply (proj2 (nonpositive_capacity_stays_empty 0 300 (init 0 300)
                  ltac:(lia) (reach_init 0 300))).
Defined.

(** X7: a time-to-live of 0. *)
Lemma nonpositive_ttl_serves_nothing_witness :
  fst (get (CacheManager.mk [("a", (instance_details, 5))] 10 0) "a" 5) = VNone.
Proof.
  rewrite (nonpositive_ttl_serves_nothing
             (CacheManager.mk [("a", (instance_details, 5))] 10 0) "a" 5
             instance_details 5 ltac:(simpl; lia) eq_refl ltac:(lia)).
  reflexivity.
Defined.

(** X8: no credentials configured. *)
Lemma validate_without_record_witness :
  _validate_provider_credentials [] AWS =
    inl (ValueError
           "Missing required fields for CloudProvider.AWS: access_key, secret_key, region").
Proof.
  exact (validate_without_record [] AWS ["access_key"; "secret_key"; "region"]
           eq_refl eq_refl).
Defined.

(** X9: a complete AWS record with one more key. *)
Lemma validate_accepts_more_fields_witness :
  _validate_provider_credentials [(AWS, <["profile" := "dev"]> aws_blank)] AWS = inr tt.
Proof.
  apply (validate_accepts_more_fields [(AWS, aws_blank)]).
  - change (dom aws_blank ⊆ dom (<["profile" := "dev"]> aws_blank)).
    rewrite dom_insert_L. apply union_subseteq_r.
  - vm_compute. reflexivity.
Defined.

(** X10: AWS validates, IBM does not; the loop stops at IBM. *)
Lemma initialize_each_first_failure_witness :
  exists good p rest,
    [AWS; IBM] = (good ++ p :: rest)%list /\
    Forall (fun q => _validate_provider_credentials creds_ibm_incomplete q = inr tt)
           good /\
    _validate_provider_credentials creds_ibm_incomplete p =
      inl (ValueError "Missing required fields for CloudProvider.IBM: api_key").
Proof.
  apply (proj2 (initialize_each_first_failure creds_ibm_incomplete [AWS; IBM])).
  vm_compute. reflexivity.
Defined.

(** X12: a new orchestrator has no client. *)
Lemma fetch_without_client_witness :
  fst (_fetch_resource_details ec2_up AWS "i-0123" new_orchestrator) =
    inl (RetryError (KeyError "CloudProvider.AWS")) /\
  sleeps (snd (_fetch_resource_details ec2_up AWS "i-0123" new_orchestrator)) = [4; 4].
Proof.
  destruct (fetch_without_client ec2_up "i-0123" new_orchestrator eq_refl eq_refl)
    as (Hr & _ & Hs & _).
  split; assumption.
Defined.

(** X13: a volume is not an instance. *)
Lemma unimplemented_aws_retried_witness :
  attempts (snd (_fetch_resource_details ec2_up AWS "vol-1" orch_with_client)) = 3%nat /\
  api_calls (snd (_fetch_resource_details ec2_up AWS "vol-1" orch_with_client)) = 0%nat.
Proof.
  destruct (unimplemented_aws_retried ec2_up "vol-1" orch_with_client eq_refl)
    as (_ & Ha & _ & Hc).
  split; assumption.
Defined.

(** X14: throttled once, answered at the second call after one sleep. *)
Lemma fetch_returns_first_answer_witness :
  let r := _fetch_resource_details ec2_throttled_once AWS "i-0123" orch_with_client in
  fst r = inr instance_details /\ api_calls (snd r) = 2%nat /\ sleeps (snd r) = [4].
Proof.
  exact (fetch_returns_first_answer ec2_throttled_once "i-0123" orch_with_client
           eq_refl eq_refl).
Defined.

(** X15: the key of a GCP disk is the key of that disk only. *)
Lemma cache_key_injective_witness :
  cache_key GCP "disk-1" = "CloudProvider.GCP:disk-1" /\
  (GCP = GCP /\ "disk-1" = "disk-1").
Proof.
  split; [reflexivity|].
  exact (cache_key_injective GCP GCP "disk-1" "disk-1" eq_refl).
Defined.

(** X16: fetched once, then served from the cache a second later. *)
Lemma cached_value_served_within_ttl_witness :
  let first := get_resource_details_body (clock_from 0) ec2_up AWS "i-0123"
                 orch_with_client in
  fst first = inr instance_details /\
  get_resource_details_body (clock_from 0) ec2_up AWS "i-0123" (snd first) =
    (inr instance_details, tick_reads (snd first)) /\
  api_calls (tick_reads (snd first)) = 1%nat.
Proof.
  cbv zeta. split; [vm_compute; reflexivity|].
  destruct (cached_value_served_within_ttl (clock_from 0) ec2_up AWS "i-0123"
              orch_with_client instance_details
              (snd (get_resource_details_body (clock_from 0) ec2_up AWS "i-0123"
                      orch_with_client)))
    as (ts & Hstored & Hserved); [vm_compute; reflexivity|reflexivity|].
  vm_compute in Hstored. injection Hstored as <-.
  split; [apply Hserved; vm_compute; reflexivity|vm_compute; reflexivity].
Defined.

(** X17: the failed lookup of an instance on a new orchestrator leaves the
    [lru_cache] table empty. *)
Lemma failed_call_not_memoized_witness :
  let r := get_resource_details (clock_from 0) ec2_up AWS "i-0123" new_orchestrator in
  fst r = inl (RetryError (KeyError "CloudProvider.AWS")) /\ lru (snd r) = [].
Proof.
  cbv zeta. split; [vm_compute; reflexivity|].
  apply (proj1 (failed_call_not_memoized (clock_from 0) ec2_up AWS "i-0123"
                  new_orchestrator (RetryError (KeyError "CloudProvider.AWS"))
                  (snd (get_resource_details (clock_from 0) ec2_up AWS "i-0123"
                          new_orchestrator))
                  ltac:(vm_compute; reflexivity))).
Defined.

(** X18: 200 distinct lookups on a new orchestrator. *)
Lemma tables_stay_bounded_witness :
  (length (lru (call_all slow_clock ec2_up_once (fillers 200) orch_with_client))
   <= 128)%nat.
Proof.
  apply (tables_stay_bounded slow_clock ec2_up_once 1000 300 (fillers 200)
           orch_with_client).
  - simpl. lia.
  - repeat split; simpl; [apply NoDup_nil_2|lia].
Defined.

(** X19: a disk nobody has ever created. *)
Lemma any_resource_exists_elsewhere_witness :
  fst (_validate_resource_exists (clock_from 0) ec2_down GCP "no-such-disk"
         new_orchestrator) = inr true.
Proof.
  apply (any_resource_exists_elsewhere (clock_from 0) ec2_down GCP "no-such-disk"
           new_orchestrator eq_refl).
  simpl. lia.
Defined.

(** X20: an instance, asked of a new orchestrator. *)
Lemma aws_instance_missing_without_client_witness :
  fst (_validate_resource_exists (clock_from 0) ec2_up AWS "i-0123" new_orchestrator) =
    inr false.
Proof.
  apply (aws_instance_missing_without_client (clock_from 0) ec2_up "i-0123"
           new_orchestrator eq_refl eq_refl eq_refl eq_refl).
Defined.


(** X22: on the orchestrator as the program creates it, with no
    credentials, the dashboard prints the validation error of AWS; with
    complete AWS credentials and AWS alone monitored it prints an empty
    table. *)
Lemma monitor_never_shows_a_row_witness :
  monitor percent_of_Z psutil_steady (clock_from 0) 1 [] None false no_metrics =
    ([PrintError
        (ValueError
           "Missing required fields for CloudProvider.AWS: access_key, secret_key, region")],
     true, no_metrics) /\
  monitor percent_of_Z psutil_steady (clock_from 0) 1 [(AWS, aws_blank)] (Some AWS)
    false no_metrics = ([PrintTable []], true, no_metrics).
Proof.
  split.
  - rewrite monitor_never_shows_a_row. vm_compute. reflexivity.
  - rewrite monitor_never_shows_a_row. vm_compute. reflexivity.
Defined.
